(** * Tone-scoring engine of colour-analysis-cam: [src/utils/toneEvaluator.ts]

    A shallow embedding of the tone evaluator and of the colour-space
    converter it calls, followed by the properties of the specification
    that were checked against it.

    Modelling choices.

    - A JavaScript [number] is an IEEE-754 binary64 value.  It is modelled
      by Rocq's primitive [float], which is that very format: [+], [-], [*],
      [/] and the comparisons are the primitive operations, and literals
      denote the nearest binary64 value, as in JavaScript.  NaN, the two
      infinities and the two zeros are all present.
    - [Math.pow], [Math.cbrt], [Math.atan2] and [Math.hypot] are
      "implementation-approximated" in ECMAScript: they are taken as the
      fields of a [MathImpl] record and the development holds for every
      implementation.
    - A JavaScript string is a sequence of UTF-16 code units.  It is modelled
      by [string], every character standing for one code unit in the range
      U+0000..U+00FF.
    - The array [profile.matchBuckets] is an object which [evaluateTone]
      sorts with [Array.prototype.sort], that is, in place.  Arrays of
      buckets therefore live in a store and a profile holds a reference. *)

From Stdlib Require Import ZArith List String Ascii Bool Lia Floats Sorting.Permutation Sorting.Sorted.
From stdpp Require Import gmap.
Import ListNotations.

Set Warnings "-inexact-float".
#[local] Open Scope Z_scope.

(** ** JavaScript numbers *)

Abbreviation number := float.

(** The binary64 value nearest to an integer (exact below 2^53). *)
Definition Z2F (n : Z) : number := SF2Prim (binary_normalize prec emax n 0 false).

(** A [number] is falsy when it is [+0], [-0] or [NaN]. *)
Definition falsy (x : number) : bool := is_nan x || is_zero x.

(** [x || y] on numbers. *)
Definition js_or (x y : number) : number := if falsy x then y else x.

(** [Math.min] and [Math.max] of two arguments: NaN when an argument is NaN,
    and [-0] is smaller than [+0]. *)
Definition Math_min (x y : number) : number :=
  if is_nan x || is_nan y then nan
  else if (x <? y)%float then x
  else if (y <? x)%float then y
  else if get_sign x then x else y.

Definition Math_max (x y : number) : number :=
  if is_nan x || is_nan y then nan
  else if (x <? y)%float then y
  else if (y <? x)%float then x
  else if get_sign x then y else x.

Definition Math_abs (x : number) : number := abs x.

(** [Math.round]: the integer nearest to [x], ties towards +infinity;
    [-0] for [-0.5 <= x < 0]; [x] itself when it is not finite. *)
Definition Math_round (x : number) : number :=
  match Prim2SF x with
  | S754_finite s m e =>
      if 0 <=? e then x
      else
        let n := Z.shiftr (2 * cond_Zopp s (Zpos m) + 2 ^ (- e)) (1 - e) in
        if n =? 0 then (if s then neg_zero else zero) else Z2F n
  | _ => x
  end.

(** [x % y]: the remainder of the truncating division, with the sign of [x];
    it is computed exactly. *)
Definition js_rem (x y : number) : number :=
  match Prim2SF x, Prim2SF y with
  | S754_nan, _ | _, S754_nan => nan
  | S754_infinity _, _ => nan
  | _, S754_zero _ => nan
  | S754_zero _, _ => x
  | S754_finite _ _ _, S754_infinity _ => x
  | S754_finite sx mx ex, S754_finite _ my ey =>
      let e := Z.min ex ey in
      let r := Z.rem (Zpos mx * 2 ^ (ex - e)) (Zpos my * 2 ^ (ey - e)) in
      if r =? 0 then (if sx then neg_zero else zero)
      else SF2Prim (binary_normalize prec emax (cond_Zopp sx r) e false)
  end.

(** The integer part of a finite number, 0 for NaN and the infinities. *)
Definition truncate (x : number) : Z :=
  match Prim2SF x with
  | S754_finite s m e =>
      cond_Zopp s (if 0 <=? e then Zpos m * 2 ^ e else Zpos m / 2 ^ (- e))
  | _ => 0
  end.

Definition ToUint32 (x : number) : Z := truncate x mod 2 ^ 32.

Definition ToInt32 (x : number) : Z :=
  let k := ToUint32 x in if 2 ^ 31 <=? k then k - 2 ^ 32 else k.

(** [x >> y] and [x & y]. *)
Definition js_shr (x y : number) : number :=
  Z2F (Z.shiftr (ToInt32 x) (ToUint32 y mod 32)).

Definition js_and (x y : number) : number :=
  Z2F (Z.land (ToInt32 x) (ToInt32 y)).

(** ** JavaScript strings and [parseInt] *)

Definition code (c : ascii) : Z := Z.of_N (N_of_ascii c).

(** White space and line terminators among the code units below U+0100. *)
Definition isWhiteSpace (c : ascii) : bool :=
  let n := code c in
  ((9 <=? n) && (n <=? 13)) || (n =? 32) || (n =? 160).

Fixpoint trimStart (s : string) : string :=
  match s with
  | String c s' => if isWhiteSpace c then trimStart s' else s
  | EmptyString => s
  end.

(** The value of a digit in radix up to 36. *)
Definition digitValue (c : ascii) : option Z :=
  let n := code c in
  if (48 <=? n) && (n <=? 57) then Some (n - 48)
  else if (97 <=? n) && (n <=? 122) then Some (n - 87)
  else if (65 <=? n) && (n <=? 90) then Some (n - 55)
  else None.

(** The longest prefix of radix-[R] digits: its value and its length. *)
Fixpoint parseDigits (R : Z) (s : string) (acc : Z) (len : nat) : Z * nat :=
  match s with
  | String c s' =>
      match digitValue c with
      | Some d => if d <? R then parseDigits R s' (acc * R + d) (S len) else (acc, len)
      | None => (acc, len)
      end
  | EmptyString => (acc, len)
  end.

Definition stripHexPrefix (s : string) : string :=
  match s with
  | String "0" (String "x" s') | String "0" (String "X" s') => s'
  | _ => s
  end.

(** [parseInt(string, radix)] for a radix between 2 and 36. *)
Definition parseInt (str : string) (radix : Z) : number :=
  let s := trimStart str in
  let '(neg, s) :=
    match s with
    | String "-" s' => (true, s')
    | String "+" s' => (false, s')
    | _ => (false, s)
    end in
  let s := if radix =? 16 then stripHexPrefix s else s in
  let '(mathInt, len) := parseDigits radix s 0 0%nat in
  match len with
  | O => nan
  | _ => SF2Prim (binary_normalize prec emax (cond_Zopp neg mathInt) 0 neg)
  end.

(** [hex.replace(/^#/, "")]. *)
Definition stripHash (hex : string) : string :=
  match hex with
  | String "#" s => s
  | _ => hex
  end.

(** [s.split("").map(c => c + c).join("")]. *)
Fixpoint doubleChars (s : string) : string :=
  match s with
  | String c s' => String c (String c (doubleChars s'))
  | EmptyString => EmptyString
  end.

(** ** Completions: a call returns or throws *)

Inductive completion (A : Type) : Type :=
  | Return (a : A)
  | Throw (message : string).
Arguments Return {A} a.
Arguments Throw {A} message.

Module Rgb.
Record t := { r : number; g : number; b : number }.
End Rgb.

(** [hexToRgb], lines 131-137. *)
Definition hexToRgb (hex : string) : completion Rgb.t :=
  let s := stripHash hex in
  if negb (String.length s =? 3)%nat && negb (String.length s =? 6)%nat
  then Throw "Bad hex"
  else
    let h := if (String.length s =? 3)%nat then doubleChars s else s in
    let n := parseInt h 16 in
    Return {| Rgb.r := js_and (js_shr n (Z2F 16)) (Z2F 255);
              Rgb.g := js_and (js_shr n (Z2F 8)) (Z2F 255);
              Rgb.b := js_and n (Z2F 255) |}.

(** ** The data model, lines 4-36 *)

Module Lab.
Record t := { L : number; a : number; b : number }.
End Lab.

Module RangeRule.
Record t := { min : number; max : number; weight : number }.
End RangeRule.

Module HueSectorsRule.
Record t := {
  sectors : list (number * number);
  toleranceDegrees : number;
  weight : number }.
End HueSectorsRule.

Module WarmthPenaltyRule.
Record t := { lab_b_gt : number; penalty : number }.
End WarmthPenaltyRule.

Module MatchBucket.
Record t := { minScore : number; label : string }.
End MatchBucket.

(** Arrays of buckets are objects of the store; [ref] is a reference to one. *)
Definition ref := positive.
Abbreviation store := (gmap ref (list MatchBucket.t)).

Module ToneProfile.
Record t := {
  label : string;
  lightness : RangeRule.t;
  chroma : RangeRule.t;
  hueSectors : HueSectorsRule.t;
  warmthPenalty : option WarmthPenaltyRule.t;
  matchBuckets : ref }.
End ToneProfile.

Module ToneResult.
Record t := {
  input : string;
  toneLabel : string;
  lab : Lab.t;
  chroma : number;
  hue : number;
  score : number;
  matchLevel : string;
  notes : list string }.
End ToneResult.

(** ** Calls that read and write the store *)

Definition js (A : Type) : Type := store -> completion A * store.

Definition ret {A} (x : A) : js A := fun st => (Return x, st).

Definition bind {A B} (m : js A) (k : A -> js B) : js B :=
  fun st =>
    match m st with
    | (Return x, st') => k x st'
    | (Throw e, st') => (Throw e, st')
    end.

Definition lift {A} (c : completion A) : js A := fun st => (c, st).

Notation "'let*' x ':=' m 'in' k" := (bind m (fun x => k))
  (at level 10, x pattern, m at level 100, k at level 200).

(** [Array.prototype.sort(comparefn)].  The comparator's result [v] orders
    [x] after [y] when [v > 0]; a NaN result counts as [+0].  The sort is
    stable (ECMAScript 2019), so for a comparator that is a consistent
    ordering the result is the one of this insertion sort. *)
Section Sort.
Context {A : Type} (comparefn : A -> A -> number).

Fixpoint sortInsert (x : A) (l : list A) : list A :=
  match l with
  | [] => [x]
  | y :: l' =>
      if (0 <? comparefn x y)%float then y :: sortInsert x l' else x :: l
  end.

Definition sorted (l : list A) : list A := fold_right sortInsert [] l.
End Sort.

(** [arr.sort(comparefn)] sorts the array object [arr] in place and returns
    the same reference. *)
Definition Array_sort (arr : ref) (comparefn : MatchBucket.t -> MatchBucket.t -> number)
  : js ref :=
  fun st =>
    match st !! arr with
    | Some l => (Return arr, <[arr := sorted comparefn l]> st)
    | None => (Throw "TypeError", st)
    end.

(** [arr.find(predicate)]. *)
Definition Array_find (arr : ref) (predicate : MatchBucket.t -> bool)
  : js (option MatchBucket.t) :=
  fun st =>
    match st !! arr with
    | Some l => (Return (List.find predicate l), st)
    | None => (Throw "TypeError", st)
    end.

(** ** Helpers: math and colour, lines 95-174 *)

#[local] Open Scope float_scope.

Definition clamp (min x max : number) : number :=
  Math_max min (Math_min x max).

Definition round1 (x : number) : number := Math_round (x * 10) / 10.
Definition round2 (x : number) : number := Math_round (x * 100) / 100.

Definition rangePenalty (value : number) (rule : RangeRule.t) : number :=
  let min := RangeRule.min rule in
  let max := RangeRule.max rule in
  let weight := RangeRule.weight rule in
  if (min <=? value) && (value <=? max) then 0
  else
    let dist := if value <? min then min - value else value - max in
    let half := js_or ((max - min) / 2) 1 in
    Math_min ((dist / half) * weight) weight.

Definition inSector (h a b : number) : bool :=
  if a <=? b then (a <=? h) && (h <=? b) else (a <=? h) || (h <=? b).

Definition degToEdgeDistance (h a b : number) : number :=
  let d (x y : number) : number :=
    let dd := js_rem (Math_abs (x - y)) 360 in
    if 180 <? dd then 360 - dd else dd in
  Math_min (d h a) (d h b).

(** The loop of [hueSectorDistance] with its accumulator [best]. *)
Fixpoint hueSectorLoop (h : number) (sectors : list (number * number)) (best : number)
  : number :=
  match sectors with
  | [] => best
  | (a, b) :: rest =>
      if inSector h a b then 0
      else hueSectorLoop h rest (Math_min best (degToEdgeDistance h a b))
  end.

Definition hueSectorDistance (h : number) (sectors : list (number * number)) : number :=
  hueSectorLoop h sectors infinity.

(** The functions which ECMAScript leaves to the implementation. *)
Class MathImpl := {
  Math_pow : number -> number -> number;
  Math_cbrt : number -> number;
  Math_atan2 : number -> number -> number;
  Math_hypot : number -> number -> number }.

Definition Math_PI : number := 3.141592653589793.

Section Engine.
Context {M : MathImpl}.

Definition srgbToLinear (u8 : number) : number :=
  let v := u8 / 255 in
  if v <=? 0.04045 then v / 12.92 else Math_pow ((v + 0.055) / 1.055) 2.4.

Definition rgbToXyz (r8 g8 b8 : number) : number * number * number :=
  let r := srgbToLinear r8 in
  let g := srgbToLinear g8 in
  let b := srgbToLinear b8 in
  let X := 0.4124564 * r + 0.3575761 * g + 0.1804375 * b in
  let Y := 0.2126729 * r + 0.7151522 * g + 0.0721750 * b in
  let Z := 0.0193339 * r + 0.1191920 * g + 0.9503041 * b in
  (X, Y, Z).

Definition f (t : number) : number :=
  let eps := Math_pow (6 / 29) 3 in
  let k := Math_pow (29 / 3) 2 / 3 in
  if eps <? t then Math_cbrt t else k * t + 4 / 29.

Definition xyzToLab (X Y Z : number) : Lab.t :=
  let Xn := 0.95047 in
  let Yn := 1.0 in
  let Zn := 1.08883 in
  let fx := f (X / Xn) in
  let fy := f (Y / Yn) in
  let fz := f (Z / Zn) in
  {| Lab.L := 116 * fy - 16; Lab.a := 500 * (fx - fy); Lab.b := 200 * (fy - fz) |}.

Definition rgbToLab (r g b : number) : Lab.t :=
  let '(X, Y, Z) := rgbToXyz r g b in
  xyzToLab X Y Z.

Definition labHue (lab : Lab.t) : number :=
  let h := Math_atan2 (Lab.b lab) (Lab.a lab) * (180 / Math_PI) in
  if h <? 0 then h + 360 else h.

(** ** The public API, lines 39-91 *)

(** What [evaluateTone] has computed when it reaches line 75: the colour,
    the accumulated penalty and the notes pushed so far. *)
Record Scoring := {
  sc_lab : Lab.t;
  sc_C : number;
  sc_H : number;
  sc_penalty : number;
  sc_notes : list string }.

(** Lines 41-73. *)
Definition scoreColour (rgb : Rgb.t) (profile : ToneProfile.t) : Scoring :=
  let lab := rgbToLab (Rgb.r rgb) (Rgb.g rgb) (Rgb.b rgb) in
  let L := Lab.L lab in
  let C := Math_hypot (Lab.a lab) (Lab.b lab) in
  let H := labHue lab in
  let penalty := 0 in
  let notes : list string := [] in
  (* Lightness *)
  let lightness := ToneProfile.lightness profile in
  let penalty := penalty + rangePenalty L lightness in
  let notes :=
    if L <? RangeRule.min lightness then notes ++ ["too dark for this tone"%string]
    else notes in
  let notes :=
    if RangeRule.max lightness <? L then notes ++ ["too light/washed"%string]
    else notes in
  (* Chroma *)
  let chroma := ToneProfile.chroma profile in
  let penalty := penalty + rangePenalty C chroma in
  let notes :=
    if C <? RangeRule.min chroma then notes ++ ["too gray/soft"%string] else notes in
  let notes :=
    if RangeRule.max chroma <? C then notes ++ ["too saturated/bright"%string]
    else notes in
  (* Hue sectors *)
  let hueSectors := ToneProfile.hueSectors profile in
  let d := hueSectorDistance H (HueSectorsRule.sectors hueSectors) in
  let t := js_or (HueSectorsRule.toleranceDegrees hueSectors) 60 in
  let frac := Math_min (d / t) 1 in
  let huePenaltyPts := frac * HueSectorsRule.weight hueSectors in
  let penalty := penalty + huePenaltyPts in
  let notes :=
    if 0 <? d then notes ++ ["leans outside cool hue sectors"%string] else notes in
  (* Warmth penalty (optional) *)
  let '(penalty, notes) :=
    match ToneProfile.warmthPenalty profile with
    | Some w =>
        if WarmthPenaltyRule.lab_b_gt w <? Lab.b lab
        then (penalty + WarmthPenaltyRule.penalty w,
              notes ++ ["yellow warmth present"%string])
        else (penalty, notes)
    | None => (penalty, notes)
    end in
  {| sc_lab := lab; sc_C := C; sc_H := H; sc_penalty := penalty; sc_notes := notes |}.

Definition evaluateTone (hex : string) (profile : ToneProfile.t) : js ToneResult.t :=
  let* rgb := lift (hexToRgb hex) in
  let sc := scoreColour rgb profile in
  let score := clamp 0 (100 - sc_penalty sc) 100 in
  let* buckets :=
    Array_sort (ToneProfile.matchBuckets profile)
      (fun a b => MatchBucket.minScore b - MatchBucket.minScore a) in
  let* found :=
    Array_find buckets (fun b => MatchBucket.minScore b <=? score) in
  let matchLevel :=
    match found with
    | Some b => MatchBucket.label b
    | None => "not a match"%string
    end in
  ret {| ToneResult.input := hex;
         ToneResult.toneLabel := ToneProfile.label profile;
         ToneResult.lab := sc_lab sc;
         ToneResult.chroma := round2 (sc_C sc);
         ToneResult.hue := round1 (sc_H sc);
         ToneResult.score := round1 score;
         ToneResult.matchLevel := matchLevel;
         ToneResult.notes := sc_notes sc |}.
End Engine.

(** A small implementation of the four functions, exact at the arguments
    where ECMAScript fixes the result; it instantiates the development. *)
Fixpoint powNat (x : number) (n : nat) : number :=
  match n with
  | O => 1
  | S n' => x * powNat x n'
  end.

Fixpoint newtonCbrt (n : nat) (x y : number) : number :=
  match n with
  | O => y
  | S n' => newtonCbrt n' x ((2 * y + x / (y * y)) / 3)
  end.

Definition sampleMath : MathImpl := {|
  Math_pow x y :=
    if y =? 2 then powNat x 2 else if y =? 3 then powNat x 3 else nan;
  Math_cbrt x :=
    if is_zero x || is_nan x || is_infinity x then x
    else if x <? 0 then - newtonCbrt 200 (- x) 1 else newtonCbrt 200 x 1;
  Math_atan2 y x :=
    if is_zero y && (0 <? x) then y
    else if is_zero y && is_zero x && negb (get_sign x) then y
    else nan;
  Math_hypot x y := sqrt (x * x + y * y) |}.

(** A profile and a store for the examples below. *)
Definition bucket (m : number) (l : string) : MatchBucket.t :=
  {| MatchBucket.minScore := m; MatchBucket.label := l |}.

Definition sampleProfile : ToneProfile.t := {|
  ToneProfile.label := "Summer";
  ToneProfile.lightness :=
    {| RangeRule.min := 40; RangeRule.max := 60; RangeRule.weight := 30 |};
  ToneProfile.chroma :=
    {| RangeRule.min := 0; RangeRule.max := 60; RangeRule.weight := 30 |};
  ToneProfile.hueSectors :=
    {| HueSectorsRule.sectors := [(350, 10)];
       HueSectorsRule.toleranceDegrees := 60;
       HueSectorsRule.weight := 30 |};
  ToneProfile.warmthPenalty := None;
  ToneProfile.matchBuckets := 1%positive |}.

Definition sampleStore : store :=
  {[ 1%positive := [bucket 0 "Poor"; bucket 90 "Perfect"; bucket 70 "Good"] ]}.

(** ** The order of binary64 numbers

    [SFrank] sends a number other than NaN to an integer in a way that
    respects the order: a finite number to its value in units of 2^-1074,
    the infinities beyond every finite number. *)
Definition SFrank (x : spec_float) : Z :=
  match x with
  | S754_zero _ | S754_nan => 0%Z
  | S754_infinity s => cond_Zopp s (2 ^ 2100)%Z
  | S754_finite s m e => cond_Zopp s (Zpos m * 2 ^ (e + 1074))%Z
  end.

Definition rank (x : number) : Z := SFrank (Prim2SF x).

(** ** Hexadecimal strings *)

(** A character is a hexadecimal digit: [0-9], [a-f] or [A-F]. *)
Definition isHexDigit (c : ascii) : bool :=
  match digitValue c with
  | Some d => (d <? 16)%Z
  | None => false
  end.

Fixpoint allHex (s : string) : bool :=
  match s with
  | String c s' => isHexDigit c && allHex s'
  | EmptyString => true
  end.

(** The value of a hexadecimal digit, and of a string of such digits read as
    a number in base 16. *)
Definition hexDigit (c : ascii) : Z :=
  match digitValue c with
  | Some d => d
  | None => 0%Z
  end.

Fixpoint hexValueFrom (acc : Z) (s : string) : Z :=
  match s with
  | String c s' => hexValueFrom (acc * 16 + hexDigit c)%Z s'
  | EmptyString => acc
  end.

Definition hexValue (s : string) : Z := hexValueFrom 0%Z s.

(** ** [hexToRgb] on well-formed and on arbitrary input *)

Definition rgbOf (r g b : Z) : Rgb.t :=
  {| Rgb.r := Z2F r; Rgb.g := Z2F g; Rgb.b := Z2F b |}.

(** ** The native module: [ColorExtractorModule.java]

    A Java [int] is a 32-bit and a [long] a 64-bit two's complement integer:
    they are integers, wrapped after every operation.  A bitmap is its
    width, its height and its ARGB pixels.  The file system and the decoder
    are an environment: whether a path exists and what it decodes to.  The
    promise handed to a method is modelled by the way it is settled. *)
Module Java.

Definition int (n : Z) : Z := ((n + 2 ^ 31) mod 2 ^ 32 - 2 ^ 31)%Z.
Definition long (n : Z) : Z := ((n + 2 ^ 63) mod 2 ^ 64 - 2 ^ 63)%Z.

Inductive exn : Type :=
  | ArithmeticException
  | IllegalArgumentException
  | ArrayIndexOutOfBoundsException
  | NegativeArraySizeException.

Inductive result (A : Type) : Type :=
  | Ok (a : A)
  | Raise (e : exn).
Arguments Ok {A} a.
Arguments Raise {A} e.

Definition andThen {A B} (m : result A) (k : A -> result B) : result B :=
  match m with
  | Ok a => k a
  | Raise e => Raise e
  end.

(** [a / b] on [int]s and on [long]s: truncated, [ArithmeticException] for a
    zero divisor. *)
Definition idiv (a b : Z) : result Z :=
  if (b =? 0)%Z then Raise ArithmeticException else Ok (int (Z.quot a b)).

Definition ldiv (a b : Z) : result Z :=
  if (b =? 0)%Z then Raise ArithmeticException else Ok (long (Z.quot a b)).

(** [android.graphics.Bitmap]: [getPixel] throws outside the bitmap. *)
Record Bitmap := {
  getWidth : Z;
  getHeight : Z;
  pixelAt : Z -> Z -> Z }.

Definition getPixel (bitmap : Bitmap) (x y : Z) : result Z :=
  if ((0 <=? x) && (x <? getWidth bitmap) && (0 <=? y) && (y <? getHeight bitmap))%Z
  then Ok (pixelAt bitmap x y)
  else Raise IllegalArgumentException.

(** [android.graphics.Color]: the channels of an ARGB [int]. *)
Definition red (color : Z) : Z := Z.land (Z.shiftr color 16) 255.
Definition green (color : Z) : Z := Z.land (Z.shiftr color 8) 255.
Definition blue (color : Z) : Z := Z.land color 255.

(** [String.format("%02X", n)]: the upper-case hexadecimal digits of the
    [int] read as unsigned, with a zero in front of a single digit. *)
Definition upperDigit (d : Z) : ascii :=
  ascii_of_N (Z.to_N (if (d <? 10)%Z then 48 + d else 55 + d)).

Fixpoint hexDigitsUpper (fuel : nat) (n : Z) (acc : string) : string :=
  match fuel with
  | O => acc
  | S fuel' =>
      let acc' := String (upperDigit (n mod 16)) acc in
      if (n / 16 =? 0)%Z then acc' else hexDigitsUpper fuel' (n / 16) acc'
  end.

Definition format02X (n : Z) : string :=
  let s := hexDigitsUpper 8 (n mod 2 ^ 32) EmptyString in
  if (String.length s <? 2)%nat then String "0" s else s.

(** [String.format("#%02X%02X%02X", r, g, b)]. *)
Definition formatColor (r g b : Z) : string :=
  String "#" (format02X r ++ format02X g ++ format02X b).

(** [s.replace(target, "")]: every occurrence of [target], from the left. *)
Fixpoint removeAllFuel (fuel : nat) (target s : string) : string :=
  match fuel with
  | O => s
  | S fuel' =>
      match s with
      | EmptyString => EmptyString
      | String c s' =>
          if String.prefix target s && negb (String.length target =? 0)%nat
          then removeAllFuel fuel' target
                 (String.substring (String.length target)
                    (String.length s - String.length target) s)
          else String c (removeAllFuel fuel' target s')
      end
  end.

Definition removeAll (target s : string) : string :=
  removeAllFuel (String.length s) target s.

(** The integers [a], [a + 1], ..., [b - 1]: the values of a loop variable. *)
Definition range (a b : Z) : list Z :=
  map (fun i => (a + Z.of_nat i)%Z) (seq 0 (Z.to_nat (b - a))).

(** What the environment answers. *)
Record Env := {
  fileExists : string -> bool;
  decodeFile : string -> Z -> option Bitmap;
  getMessage : exn -> string }.

(** How the promise is settled. *)
Inductive settled (A : Type) : Type :=
  | Resolved (value : A)
  | Rejected (code message : string).
Arguments Resolved {A} value.
Arguments Rejected {A} code message.

Record ColorResult := {
  hex : string;
  r : Z;
  g : Z;
  b : Z;
  isDark : bool;
  brightness : Z }.

(** The sums of the channels and the number of pixels of the sample area. *)
Record Sums := { redSum : Z; greenSum : Z; blueSum : Z; pixelCount : Z }.

(** The body of the two loops of [extractColorFromImage]. *)
Definition addPixel (bitmap : Bitmap) (x y : Z) (acc : Sums) : result Sums :=
  andThen (getPixel bitmap x y) (fun pixel =>
  Ok {| redSum := long (redSum acc + red pixel);
        greenSum := long (greenSum acc + green pixel);
        blueSum := long (blueSum acc + blue pixel);
        pixelCount := int (pixelCount acc + 1) |}).

Definition sumArea (bitmap : Bitmap) (startX endX startY endY : Z) : result Sums :=
  fold_left
    (fun acc x =>
       fold_left
         (fun acc y => andThen acc (addPixel bitmap x y))
         (range startY endY) acc)
    (range startX endX)
    (Ok {| redSum := 0; greenSum := 0; blueSum := 0; pixelCount := 0 |}).

(** The [try] block of [extractColorFromImage], from the decoded bitmap on. *)
Definition averageOfCentre (bitmap : Bitmap) : result ColorResult :=
  let width := getWidth bitmap in
  let height := getHeight bitmap in
  let centerX := int (Z.quot width 2) in
  let centerY := int (Z.quot height 2) in
  let sampleSize := int (Z.quot (Z.min width height) 10) in
  let startX := Z.max 0 (int (centerX - int (Z.quot sampleSize 2))) in
  let startY := Z.max 0 (int (centerY - int (Z.quot sampleSize 2))) in
  let endX := Z.min width (int (centerX + int (Z.quot sampleSize 2))) in
  let endY := Z.min height (int (centerY + int (Z.quot sampleSize 2))) in
  andThen (sumArea bitmap startX endX startY endY) (fun sums =>
  andThen (ldiv (redSum sums) (pixelCount sums)) (fun qr =>
  andThen (ldiv (greenSum sums) (pixelCount sums)) (fun qg =>
  andThen (ldiv (blueSum sums) (pixelCount sums)) (fun qb =>
  let avgRed := int qr in
  let avgGreen := int qg in
  let avgBlue := int qb in
  let hexColor := formatColor avgRed avgGreen avgBlue in
  let brightness := int (Z.quot (int (int (avgRed + avgGreen) + avgBlue)) 3) in
  Ok {| hex := hexColor; r := avgRed; g := avgGreen; b := avgBlue;
        isDark := (brightness <? 30)%Z; brightness := brightness |})))).

Definition extractColorFromImage (env : Env) (imagePath : string)
  : settled ColorResult :=
  let cleanPath := removeAll "file://" imagePath in
  if negb (fileExists env cleanPath)
  then Rejected "FILE_NOT_FOUND" ("Image file not found: " ++ cleanPath)
  else
    match decodeFile env cleanPath 8 with
    | None => Rejected "DECODE_ERROR" "Failed to decode image"
    | Some bitmap =>
        match averageOfCentre bitmap with
        | Ok value => Resolved value
        | Raise e =>
            Rejected "EXTRACTION_ERROR" ("Failed to extract color: " ++ getMessage env e)
        end
    end.

End Java.
(** The centre square that [extractColorFromImage] samples, for a bitmap of
    the given size, and the truncated mean of a channel over a list of
    pixels. *)
Definition centreSquare (width height : Z) : list (Z * Z) :=
  let half := (Z.min width height / 10 / 2)%Z in
  list_prod (Java.range (width / 2 - half) (width / 2 + half))
            (Java.range (height / 2 - half) (height / 2 + half)).

Definition sumZ (l : list Z) : Z := fold_right Z.add 0%Z l.

Definition channelMean (channel : Z -> Z) (bitmap : Java.Bitmap) (area : list (Z * Z)) : Z :=
  (sumZ (map (fun p => channel (Java.pixelAt bitmap (fst p) (snd p))) area)
   / Z.of_nat (length area))%Z.
(** An environment and two bitmaps for the examples. *)
Definition plainBitmap (width height color : Z) : Java.Bitmap :=
  {| Java.getWidth := width; Java.getHeight := height;
     Java.pixelAt := fun _ _ => color |}.

Definition envWith (bitmap : Java.Bitmap) : Java.Env :=
  {| Java.fileExists := fun _ => true;
     Java.decodeFile := fun _ _ => Some bitmap;
     Java.getMessage := fun _ => "divide by zero"%string |}.
(** A byte is formatted as two hexadecimal digits that read back as it. *)
Definition byteFormatOk (n : Z) : bool :=
  match Java.format02X n with
  | String c1 (String c2 EmptyString) =>
      isHexDigit c1 && isHexDigit c2 && (16 * hexDigit c1 + hexDigit c2 =? n)%Z
  | _ => false
  end.

(** ** [extractDominantColors] of the native module *)
Module JavaDominant.
Import Java.














End JavaDominant.






(** ** The JavaScript colour helpers: [unnamed/part_000] and [ColorCamera]

    [Number.prototype.toString(16)] is modelled where ECMAScript fixes its
    result: for NaN, the infinities and the integers.  The digits of a
    fraction are left to the implementation, and the model answers [None]
    for them. *)

Definition lowerDigit (d : Z) : ascii :=
  ascii_of_N (Z.to_N (if (d <? 10)%Z then 48 + d else 87 + d)%Z).

Fixpoint hexDigitsLower (fuel : nat) (n : Z) (acc : string) : string :=
  match fuel with
  | O => acc
  | S fuel' =>
      let acc' := String (lowerDigit (n mod 16)) acc in
      if (n / 16 =? 0)%Z then acc' else hexDigitsLower fuel' (n / 16) acc'
  end.

(** The hexadecimal digits of a natural number. *)
Definition hexOfNat (n : Z) : string :=
  hexDigitsLower (S (Z.to_nat (Z.log2 n))) n EmptyString.

(** A finite number without a fractional part. *)
Definition isInteger (x : number) : bool :=
  match Prim2SF x with
  | S754_zero _ => true
  | S754_finite _ m e => (0 <=? e)%Z || (Zpos m mod 2 ^ (- e) =? 0)%Z
  | _ => false
  end.

Definition toString16 (x : number) : option string :=
  if is_nan x then Some "NaN"%string
  else if is_infinity x then Some (if get_sign x then "-Infinity" else "Infinity")%string
  else if isInteger x then
    let n := truncate x in
    Some (if (n <? 0)%Z then String "-" (hexOfNat (- n)) else hexOfNat n)
  else None.

(** [String.prototype.toUpperCase] on the characters [a-z]; the strings it is
    applied to below hold no other letters outside ASCII. *)
Definition upperChar (c : ascii) : ascii :=
  let n := code c in
  if ((97 <=? n) && (n <=? 122))%Z then ascii_of_N (Z.to_N (n - 32)) else c.

Fixpoint toUpperCase (s : string) : string :=
  match s with
  | String c s' => String (upperChar c) (toUpperCase s')
  | EmptyString => EmptyString
  end.

Module Fallback.

Record ColorResult := { hex : option string; rgb : Rgb.t }.

(** [rgbToHex], lines 88-93 of [part_000]. *)
Definition pad2 (hex : string) : string :=
  if (String.length hex =? 1)%nat then String "0" hex else hex.

Definition rgbToHex (r g b : number) : option string :=
  match toString16 r, toString16 g, toString16 b with
  | Some hr, Some hg, Some hb => Some (String "#" (pad2 hr ++ pad2 hg ++ pad2 hb))
  | _, _, _ => None
  end.

(** [s.replace(target, "")] for a string [target]: its first occurrence,
    wherever it is. *)
Fixpoint removeFirst (target s : string) : string :=
  match s with
  | String c s' =>
      if String.prefix target s
      then String.substring (String.length target)
             (String.length s - String.length target) s
      else String c (removeFirst target s')
  | EmptyString => EmptyString
  end.

(** [s.substring(a, b)] for [0 <= a <= b]. *)
Definition substring (a b : nat) (s : string) : string :=
  String.substring (Nat.min a (String.length s))
    (Nat.min b (String.length s) - Nat.min a (String.length s)) s.

(** [hexToRgb], lines 96-106 of [part_000]. *)
Definition hexToRgb (hex : string) : Rgb.t :=
  let hex := removeFirst "#" hex in
  {| Rgb.r := parseInt (substring 0 2 hex) 16;
     Rgb.g := parseInt (substring 2 4 hex) 16;
     Rgb.b := parseInt (substring 4 6 hex) 16 |}.

(** Lines 16-24 of [extractColorFromImage]: the brightness read off the size
    of the file. *)
Definition brightnessOf (fileSize : number) : number :=
  let expectedMaxSize := 500000%float in
  let expectedMinSize := 50000%float in
  let normalizedSize := Math_min (Math_max fileSize expectedMinSize) expectedMaxSize in
  let brightnessRatio :=
    ((normalizedSize - expectedMinSize) / (expectedMaxSize - expectedMinSize))%float in
  Math_round (brightnessRatio * 255)%float.

(** [extractColorFromImage]: [stat] is what [RNFS.stat] on the path answers,
    the size of the file or an error. *)
Definition extractColorFromImage (stat : string -> completion number) (imagePath : string)
  : ColorResult :=
  match stat (removeFirst "file://" imagePath) with
  | Return fileSize =>
      let brightness := brightnessOf fileSize in
      {| hex := rgbToHex brightness brightness brightness;
         rgb := {| Rgb.r := brightness; Rgb.g := brightness; Rgb.b := brightness |} |}
  | Throw _ =>
      {| hex := Some "#000000"%string;
         rgb := {| Rgb.r := 0; Rgb.g := 0; Rgb.b := 0 |} |}
  end.

End Fallback.

Module HslToRgb.

(** [hslToRgb], lines 58-85 of [part_000]. *)
Definition hslToRgb (h s l : number) : Rgb.t :=
  let s := (s / 100)%float in
  let l := (l / 100)%float in
  let c := ((1 - Math_abs (2 * l - 1)) * s)%float in
  let x := (c * (1 - Math_abs (js_rem (h / 60) 2 - 1)))%float in
  let m := (l - c / 2)%float in
  let '(r, g, b) :=
    if (0 <=? h)%float && (h <? 60)%float then (c, x, 0%float)
    else if (60 <=? h)%float && (h <? 120)%float then (x, c, 0%float)
    else if (120 <=? h)%float && (h <? 180)%float then (0%float, c, x)
    else if (180 <=? h)%float && (h <? 240)%float then (0%float, x, c)
    else if (240 <=? h)%float && (h <? 300)%float then (x, 0%float, c)
    else if (300 <=? h)%float && (h <? 360)%float then (c, 0%float, x)
    else (0%float, 0%float, 0%float) in
  {| Rgb.r := Math_round ((r + m) * 255)%float;
     Rgb.g := Math_round ((g + m) * 255)%float;
     Rgb.b := Math_round ((b + m) * 255)%float |}.

End HslToRgb.

Module ColorCamera.

(** The regular expression [/^#?([a-f\d]{2})([a-f\d]{2})([a-f\d]{2})$/i]:
    an optional [#] and exactly six hexadecimal digits of either case; the
    three groups when it matches. *)
Definition execHex (hex : string) : option (string * string * string) :=
  let s := stripHash hex in
  if (String.length s =? 6)%nat && allHex s
  then Some (String.substring 0 2 s, String.substring 2 2 s, String.substring 4 2 s)
  else None.

(** [hexToRgb], lines 321-330. *)
Definition hexToRgb (hex : string) : Rgb.t :=
  match execHex hex with
  | Some (g1, g2, g3) =>
      {| Rgb.r := parseInt g1 16; Rgb.g := parseInt g2 16; Rgb.b := parseInt g3 16 |}
  | None => {| Rgb.r := 0; Rgb.g := 0; Rgb.b := 0 |}
  end.

(** [rgbToHex], lines 332-337. *)
Definition rgbToHex (r g b : number) : option string :=
  match toString16 (Math_round r), toString16 (Math_round g), toString16 (Math_round b) with
  | Some hr, Some hg, Some hb =>
      Some (toUpperCase (String "#" (Fallback.pad2 hr ++ Fallback.pad2 hg ++ Fallback.pad2 hb)))
  | _, _, _ => None
  end.

End ColorCamera.

(** A byte written in lower case and, after rounding, in upper case reads
    back as itself. *)
Definition byteLowerOk (k : Z) : bool :=
  match toString16 (Z2F k) with
  | Some h =>
      match Fallback.pad2 h with
      | String c1 (String c2 EmptyString) =>
          isHexDigit c1 && isHexDigit c2 && (16 * hexDigit c1 + hexDigit c2 =? k)%Z
          && match toString16 (Math_round (Z2F k)) with
             | Some h' => String.eqb (toUpperCase (Fallback.pad2 h')) (Java.format02X k)
             | None => false
             end
      | _ => false
      end
  | None => false
  end.

(** A number above zero. *)
Definition SFpositive (x : spec_float) : bool :=
  match x with
  | S754_finite false _ _ | S754_infinity false => true
  | _ => false
  end.
(** ** The order of an array of buckets *)

(** [descending l]: the [minScore] of every bucket is at least the one of
    each bucket after it. *)
Definition descending (l : list MatchBucket.t) : Prop :=
  StronglySorted
    (fun a b => (MatchBucket.minScore b <=? MatchBucket.minScore a)%float = true) l.

(** No [minScore] is NaN. *)
Definition numericBuckets (l : list MatchBucket.t) : Prop :=
  Forall (fun b => is_nan (MatchBucket.minScore b) = false) l.

(** [a] is not below [b]: the comparator of line 78 leaves [a] before [b]. *)
Definition notBelow (a b : MatchBucket.t) : Prop :=
  (MatchBucket.minScore a <? MatchBucket.minScore b)%float = false.
Definition SFnegative (x : spec_float) : bool :=
  match x with S754_finite true _ _ | S754_infinity true => true | _ => false end.
(** The notes of lines 46-73, in the order in which the code pushes them. *)
Definition allNotes : list string :=
  ["too dark for this tone"; "too light/washed"; "too gray/soft";
   "too saturated/bright"; "leans outside cool hue sectors";
   "yellow warmth present"]%string.
(** [sampleProfile] with the weight of its lightness rule missing. *)
Definition weightlessProfile : ToneProfile.t := {|
  ToneProfile.label := ToneProfile.label sampleProfile;
  ToneProfile.lightness :=
    {| RangeRule.min := 40; RangeRule.max := 60; RangeRule.weight := nan |};
  ToneProfile.chroma := ToneProfile.chroma sampleProfile;
  ToneProfile.hueSectors := ToneProfile.hueSectors sampleProfile;
  ToneProfile.warmthPenalty := ToneProfile.warmthPenalty sampleProfile;
  ToneProfile.matchBuckets := ToneProfile.matchBuckets sampleProfile |}.

(** [sampleProfile] with a lightness rule that starts at 0. *)
Definition darkProfile : ToneProfile.t := {|
  ToneProfile.label := ToneProfile.label sampleProfile;
  ToneProfile.lightness :=
    {| RangeRule.min := 0; RangeRule.max := 60; RangeRule.weight := 30 |};
  ToneProfile.chroma := ToneProfile.chroma sampleProfile;
  ToneProfile.hueSectors := ToneProfile.hueSectors sampleProfile;
  ToneProfile.warmthPenalty := ToneProfile.warmthPenalty sampleProfile;
  ToneProfile.matchBuckets := ToneProfile.matchBuckets sampleProfile |}.

(** * Properties *)

(** ** Running [evaluateTone] *)

(** The comparator of line 78. *)
Definition byMinScoreDesc (a b : MatchBucket.t) : number :=
  MatchBucket.minScore b - MatchBucket.minScore a.

(** The result record of lines 81-90, from the scoring and the sorted buckets. *)
Definition resultOf (hex : string) (profile : ToneProfile.t) (sc : Scoring)
    (buckets : list MatchBucket.t) : ToneResult.t :=
  let score := clamp 0 (100 - sc_penalty sc) 100 in
  {| ToneResult.input := hex;
     ToneResult.toneLabel := ToneProfile.label profile;
     ToneResult.lab := sc_lab sc;
     ToneResult.chroma := round2 (sc_C sc);
     ToneResult.hue := round1 (sc_H sc);
     ToneResult.score := round1 score;
     ToneResult.matchLevel :=
       match List.find (fun b => MatchBucket.minScore b <=? score) buckets with
       | Some b => MatchBucket.label b
       | None => "not a match"%string
       end;
     ToneResult.notes := sc_notes sc |}.

Section Run.
Context {M : MathImpl}.

Lemma evaluateTone_throws hex profile (st : store) e :
  hexToRgb hex = Throw e ->
  evaluateTone hex profile st = (Throw e, st).
Proof. intros H. unfold evaluateTone, bind, lift. now rewrite H. Qed.

Lemma evaluateTone_returns hex profile (st : store) rgb l :
  hexToRgb hex = Return rgb ->
  st !! ToneProfile.matchBuckets profile = Some l ->
  evaluateTone hex profile st =
    (Return (resultOf hex profile (scoreColour rgb profile) (sorted byMinScoreDesc l)),
     <[ToneProfile.matchBuckets profile := sorted byMinScoreDesc l]> st).
Proof.
  intros H Hl. unfold evaluateTone, bind, lift, Array_sort, Array_find, ret.
  rewrite H, Hl. fold byMinScoreDesc. now rewrite lookup_insert_eq.
Qed.

End Run.

(** ** Hex validation (C1) *)

Lemma hexToRgb_length (hex : string) :
  let n := String.length (stripHash hex) in
  (n <> 3%nat /\ n <> 6%nat -> hexToRgb hex = Throw "Bad hex") /\
  (n = 3%nat \/ n = 6%nat -> exists rgb, hexToRgb hex = Return rgb).
Proof.
  cbv zeta. unfold hexToRgb.
  destruct (Nat.eqb_spec (String.length (stripHash hex)) 3) as [E3|E3];
    destruct (Nat.eqb_spec (String.length (stripHash hex)) 6) as [E6|E6]; simpl;
    split; intros H; try (eexists; reflexivity); try reflexivity; lia.
Qed.

(** C1, as the code has it: [hexToRgb], and with it [evaluateTone], throws
    exactly when the string, once an optional leading [#] is removed, has a
    length other than 3 and 6.  A string of length 3 or 6 is accepted
    whatever its characters are, and [evaluateTone] then returns a result. *)
Theorem evaluateTone_InvalidFormat `{M : MathImpl}
    (hex : string) (profile : ToneProfile.t) (st : store) :
  let n := String.length (stripHash hex) in
  (n <> 3%nat /\ n <> 6%nat ->
     hexToRgb hex = Throw "Bad hex" /\
     evaluateTone hex profile st = (Throw "Bad hex", st)) /\
  (n = 3%nat \/ n = 6%nat ->
     (exists rgb, hexToRgb hex = Return rgb) /\
     (is_Some (st !! ToneProfile.matchBuckets profile) ->
      exists res st', evaluateTone hex profile st = (Return res, st'))).
Proof.
  cbv zeta. destruct (hexToRgb_length hex) as [Hbad Hok]. split.
  - intros H. split; [now apply Hbad|]. apply evaluateTone_throws. now apply Hbad.
  - intros H. destruct (Hok H) as [rgb Hrgb]. split; [now exists rgb|].
    intros [l Hl]. do 2 eexists. now apply (evaluateTone_returns _ _ _ rgb l).
Qed.

(** The two malformed inputs of the specification: ["#12345"] is rejected,
    ["red"] is not. *)
Lemma evaluateTone_InvalidFormat_witness :
  (@evaluateTone sampleMath "#12345" sampleProfile sampleStore
     = (Throw "Bad hex", sampleStore)) /\
  (exists res st',
     @evaluateTone sampleMath "red" sampleProfile sampleStore = (Return res, st')).
Proof.
  split.
  - apply (@evaluateTone_InvalidFormat sampleMath "#12345" sampleProfile sampleStore).
    simpl. lia.
  - apply (@evaluateTone_InvalidFormat sampleMath "red" sampleProfile sampleStore).
    + simpl. lia.
    + eexists. reflexivity.
Defined.

(** C1 fails as stated: ["red"] has non-hexadecimal characters, yet
    [hexToRgb] returns black for it and [evaluateTone] returns a result,
    with every implementation of the [Math] functions. *)
Lemma hexToRgb_accepts_red :
  hexToRgb "red" = Return {| Rgb.r := 0; Rgb.g := 0; Rgb.b := 0 |} /\
  forall M : MathImpl,
    exists res st',
      @evaluateTone M "red" sampleProfile sampleStore = (Return res, st').
Proof.
  split; [reflexivity|]. intros M. do 2 eexists.
  apply (evaluateTone_returns _ _ _ {| Rgb.r := 0; Rgb.g := 0; Rgb.b := 0 |}); reflexivity.
Qed.

(** * More of the code: facts used below *)

#[local] Open Scope Z_scope.

(** ** Binary64 order *)

Lemma digits2_bounds (p : positive) :
  2 ^ (Zpos (digits2_pos p) - 1) <= Zpos p < 2 ^ Zpos (digits2_pos p).
Proof.
  induction p as [p IH|p IH|]; simpl digits2_pos.
  - rewrite Pos2Z.inj_succ. change (Zpos p~1) with (2 * Zpos p + 1).
    replace (Z.succ (Zpos (digits2_pos p)) - 1) with (Z.succ (Zpos (digits2_pos p) - 1)) by lia.
    rewrite !Z.pow_succ_r by lia. lia.
  - rewrite Pos2Z.inj_succ. change (Zpos p~0) with (2 * Zpos p).
    replace (Z.succ (Zpos (digits2_pos p)) - 1) with (Z.succ (Zpos (digits2_pos p) - 1)) by lia.
    rewrite !Z.pow_succ_r by lia. lia.
  - simpl. lia.
Qed.

Lemma valid_finite s m e :
  valid_binary (S754_finite s m e) = true ->
  -1074 <= e <= 971 /\
  Zpos (digits2_pos m) <= 53 /\
  (Zpos (digits2_pos m) = 53 \/ e = -1074).
Proof.
  unfold valid_binary, bounded, canonical_mantissa, fexp, FloatOps.prec, FloatOps.emax, SpecFloat.emin.
  intros H. apply andb_prop in H. destruct H as [H1 H2].
  apply Z.eqb_eq in H1. apply Z.leb_le in H2. lia.
Qed.

Lemma pow2_pos (k : Z) : 0 <= k -> 0 < 2 ^ k.
Proof. intros. apply Z.pow_pos_nonneg; lia. Qed.

Lemma finite_rank_lt m1 e1 m2 e2 :
  valid_binary (S754_finite false m1 e1) = true ->
  valid_binary (S754_finite false m2 e2) = true ->
  e1 < e2 ->
  Zpos m1 * 2 ^ (e1 + 1074) < Zpos m2 * 2 ^ (e2 + 1074).
Proof.
  intros V1 V2 He.
  apply valid_finite in V1, V2.
  pose proof (digits2_bounds m1) as B1. pose proof (digits2_bounds m2) as B2.
  assert (D2 : Zpos (digits2_pos m2) = 53) by lia.
  rewrite D2 in B2.
  assert (U1 : Zpos m1 < 2 ^ 53).
  { eapply Z.lt_le_trans; [apply B1|]. apply Z.pow_le_mono_r; lia. }
  replace (e2 + 1074) with ((e2 - e1 - 1) + 1 + (e1 + 1074)) by lia.
  rewrite (Z.pow_add_r 2 (e2 - e1 - 1 + 1)), (Z.pow_add_r 2 (e2 - e1 - 1)) by lia.
  pose proof (pow2_pos (e1 + 1074) ltac:(lia)) as P.
  pose proof (pow2_pos (e2 - e1 - 1) ltac:(lia)) as Q.
  change (2 ^ 1) with 2. change (2 ^ (53 - 1)) with 4503599627370496 in B2.
  change (2 ^ 53) with 9007199254740992 in U1.
  set (a := 2 ^ (e1 + 1074)) in *. set (q := 2 ^ (e2 - e1 - 1)) in *.
  assert (H1 : Zpos m1 * a < 9007199254740992 * a) by (apply Zmult_lt_compat_r; lia).
  assert (H2 : 9007199254740992 * a <= Zpos m2 * 2 * a) by (apply Zmult_le_compat_r; lia).
  assert (H3 : Zpos m2 * 2 * a * 1 <= Zpos m2 * 2 * a * q) by (apply Zmult_le_compat_l; lia).
  lia.
Qed.

Lemma finite_rank_bound s m e :
  valid_binary (S754_finite s m e) = true ->
  0 < Zpos m * 2 ^ (e + 1074) < 2 ^ 2100.
Proof.
  intros V. apply valid_finite in V.
  pose proof (digits2_bounds m) as B.
  assert (U : Zpos m < 2 ^ 53).
  { eapply Z.lt_le_trans; [apply B|]. apply Z.pow_le_mono_r; lia. }
  pose proof (pow2_pos (e + 1074) ltac:(lia)) as P.
  assert (E : 2 ^ (e + 1074) <= 2 ^ 2045) by (apply Z.pow_le_mono_r; lia).
  split; [lia|].
  replace 2100 with (53 + 2045 + 2) by lia.
  rewrite (Z.pow_add_r 2 (53 + 2045)), (Z.pow_add_r 2 53) by lia.
  pose proof (pow2_pos 53 ltac:(lia)). pose proof (pow2_pos 2045 ltac:(lia)).
  change (2 ^ 2) with 4.
  set (a := 2 ^ (e + 1074)) in *. set (b := 2 ^ 53) in *. set (c := 2 ^ 2045) in *.
  assert (H1 : Zpos m * a < b * a) by (apply Zmult_lt_compat_r; lia).
  assert (H2 : b * a <= b * c) by (apply Zmult_le_compat_l; lia).
  assert (0 < b * c) by lia. lia.
Qed.

Lemma SFcompare_rank x y :
  valid_binary x = true -> valid_binary y = true ->
  x <> S754_nan -> y <> S754_nan ->
  SFcompare x y = Some (SFrank x ?= SFrank y).
Proof.
  intros Vx Vy Nx Ny.
  destruct x as [sx|sx| |sx mx ex], y as [sy|sy| |sy my ey]; try congruence;
    try (pose proof (finite_rank_bound _ _ _ Vx) as Bx);
    try (pose proof (finite_rank_bound _ _ _ Vy) as By);
    pose proof (pow2_pos 2100 ltac:(lia)) as P;
    unfold SFcompare, SFrank.
  all: try (destruct sx; simpl cond_Zopp; f_equal; symmetry;
            first [apply Z.compare_eq_iff; lia | apply Z.compare_lt_iff; lia | apply Z.compare_gt_iff; lia]).
  all: try (destruct sy; simpl cond_Zopp; f_equal; symmetry;
            first [apply Z.compare_eq_iff; lia | apply Z.compare_lt_iff; lia | apply Z.compare_gt_iff; lia]).
  all: try (destruct sx, sy; simpl cond_Zopp; f_equal; symmetry;
            first [apply Z.compare_eq_iff; lia | apply Z.compare_lt_iff; lia | apply Z.compare_gt_iff; lia]).
  (* finite, finite *)
  assert (Vx' : valid_binary (S754_finite false mx ex) = true) by exact Vx.
  assert (Vy' : valid_binary (S754_finite false my ey) = true) by exact Vy.
  rewrite Pos.compare_cont_spec. simpl Pos.switch_Eq.
  destruct sx, sy; simpl cond_Zopp; f_equal; symmetry.
  - destruct (Z.compare_spec ex ey) as [E|E|E].
    + subst ey. pose proof (valid_finite _ _ _ Vx) as VV. pose proof (pow2_pos (ex + 1074) ltac:(lia)) as Q.
      destruct (Pos.compare_spec mx my) as [C|C|C]; simpl CompOpp.
      * subst my. apply Z.compare_eq_iff. reflexivity.
      * apply Z.compare_gt_iff.
        assert (Zpos mx * 2 ^ (ex + 1074) < Zpos my * 2 ^ (ex + 1074))
          by (apply Zmult_lt_compat_r; lia). lia.
      * apply Z.compare_lt_iff.
        assert (Zpos my * 2 ^ (ex + 1074) < Zpos mx * 2 ^ (ex + 1074))
          by (apply Zmult_lt_compat_r; lia). lia.
    + apply Z.compare_gt_iff. pose proof (finite_rank_lt _ _ _ _ Vx' Vy' E). lia.
    + apply Z.compare_lt_iff. pose proof (finite_rank_lt _ _ _ _ Vy' Vx' E). lia.
  - apply Z.compare_lt_iff. lia.
  - apply Z.compare_gt_iff. lia.
  - destruct (Z.compare_spec ex ey) as [E|E|E].
    + subst ey. pose proof (valid_finite _ _ _ Vx) as VV. pose proof (pow2_pos (ex + 1074) ltac:(lia)) as Q.
      destruct (Pos.compare_spec mx my) as [C|C|C].
      * subst my. apply Z.compare_eq_iff. reflexivity.
      * apply Z.compare_lt_iff. apply Zmult_lt_compat_r; lia.
      * apply Z.compare_gt_iff. apply Zmult_lt_compat_r; lia.
    + apply Z.compare_lt_iff. apply (finite_rank_lt _ _ _ _ Vx' Vy' E).
    + apply Z.compare_gt_iff. apply (finite_rank_lt _ _ _ _ Vy' Vx' E).
Qed.

Lemma is_nan_Prim2SF (x : number) : is_nan x = true <-> Prim2SF x = S754_nan.
Proof.
  unfold is_nan. rewrite FloatAxioms.eqb_spec. unfold SFeqb.
  destruct (Prim2SF x) as [s|s| |s m e] eqn:E; simpl.
  - split; [discriminate|discriminate].
  - destruct s; split; discriminate.
  - split; reflexivity.
  - rewrite Z.compare_refl, Pos.compare_cont_refl. destruct s; split; discriminate.
Qed.

Lemma is_nan_false (x : number) : is_nan x = false <-> Prim2SF x <> S754_nan.
Proof.
  rewrite <- is_nan_Prim2SF. destruct (is_nan x); split; congruence.
Qed.

Lemma ltb_rank (x y : number) :
  (x <? y)%float = true <->
  is_nan x = false /\ is_nan y = false /\ rank x < rank y.
Proof.
  rewrite FloatAxioms.ltb_spec. unfold SFltb, rank. rewrite !is_nan_false.
  destruct (Prim2SF x) as [sx|sx| |sx mx ex] eqn:Ex;
    try (split; [discriminate | intros (? & ? & ?); congruence]);
    destruct (Prim2SF y) as [sy|sy| |sy my ey] eqn:Ey;
    try (split; [try discriminate; destruct sx; discriminate | intros (? & ? & ?); congruence]).
  all: rewrite <- Ex, <- Ey, SFcompare_rank
    by (rewrite ?Ex, ?Ey; try congruence; rewrite <- ?Ex, <- ?Ey; apply Prim2SF_valid).
  all: destruct (Z.compare_spec (SFrank (Prim2SF x)) (SFrank (Prim2SF y)));
    rewrite ?Ex, ?Ey in *; (split; [intros; repeat split; try congruence; try lia |
                                    intros (? & ? & ?); try reflexivity; lia]).
Qed.

Lemma leb_rank (x y : number) :
  (x <=? y)%float = true <->
  is_nan x = false /\ is_nan y = false /\ rank x <= rank y.
Proof.
  rewrite FloatAxioms.leb_spec. unfold SFleb, rank. rewrite !is_nan_false.
  destruct (Prim2SF x) as [sx|sx| |sx mx ex] eqn:Ex;
    try (split; [discriminate | intros (? & ? & ?); congruence]);
    destruct (Prim2SF y) as [sy|sy| |sy my ey] eqn:Ey;
    try (split; [try discriminate; destruct sx; discriminate | intros (? & ? & ?); congruence]).
  all: rewrite <- Ex, <- Ey, SFcompare_rank
    by (rewrite ?Ex, ?Ey; try congruence; rewrite <- ?Ex, <- ?Ey; apply Prim2SF_valid).
  all: destruct (Z.compare_spec (SFrank (Prim2SF x)) (SFrank (Prim2SF y)));
    rewrite ?Ex, ?Ey in *; (split; [intros; repeat split; try congruence; try lia |
                                    intros (? & ? & ?); try reflexivity; lia]).
Qed.

Lemma ltb_false_rank (x y : number) :
  is_nan x = false -> is_nan y = false ->
  (x <? y)%float = false <-> rank y <= rank x.
Proof.
  intros Nx Ny. pose proof (ltb_rank x y) as H.
  destruct (x <? y)%float.
  - split; [discriminate|]. intros. assert (rank x < rank y) by (apply H; reflexivity). lia.
  - split; [|reflexivity]. intros _.
    destruct (Z_lt_le_dec (rank x) (rank y)) as [Hlt|]; [|assumption].
    assert (false = true) by (apply H; auto). discriminate.
Qed.

Lemma leb_false_rank (x y : number) :
  is_nan x = false -> is_nan y = false ->
  (x <=? y)%float = false <-> rank y < rank x.
Proof.
  intros Nx Ny. pose proof (leb_rank x y) as H.
  destruct (x <=? y)%float.
  - split; [discriminate|]. intros. assert (rank x <= rank y) by (apply H; reflexivity). lia.
  - split; [|reflexivity]. intros _.
    destruct (Z_lt_le_dec (rank y) (rank x)) as [|Hle]; [assumption|].
    assert (false = true) by (apply H; auto). discriminate.
Qed.

Lemma ltb_nan_l (x y : number) : is_nan x = true -> (x <? y)%float = false.
Proof.
  intros N. destruct (x <? y)%float eqn:E; [|reflexivity].
  apply ltb_rank in E. destruct E as (E & _). congruence.
Qed.

Lemma ltb_nan_r (x y : number) : is_nan y = true -> (x <? y)%float = false.
Proof.
  intros N. destruct (x <? y)%float eqn:E; [|reflexivity].
  apply ltb_rank in E. destruct E as (_ & E & _). congruence.
Qed.

Lemma leb_nan_l (x y : number) : is_nan x = true -> (x <=? y)%float = false.
Proof.
  intros N. destruct (x <=? y)%float eqn:E; [|reflexivity].
  apply leb_rank in E. destruct E as (E & _). congruence.
Qed.

Lemma leb_nan_r (x y : number) : is_nan y = true -> (x <=? y)%float = false.
Proof.
  intros N. destruct (x <=? y)%float eqn:E; [|reflexivity].
  apply leb_rank in E. destruct E as (_ & E & _). congruence.
Qed.

(** [Math.min] and [Math.max] in terms of the order. *)
Lemma Math_min_cases (x y : number) :
  is_nan x = false -> is_nan y = false ->
  (Math_min x y = x \/ Math_min x y = y) /\
  rank (Math_min x y) = Z.min (rank x) (rank y).
Proof.
  intros Nx Ny. unfold Math_min. rewrite Nx, Ny. simpl.
  destruct (x <? y)%float eqn:E1.
  - apply ltb_rank in E1. split; [auto|lia].
  - destruct (y <? x)%float eqn:E2.
    + apply ltb_rank in E2. split; [auto|lia].
    + apply ltb_false_rank in E1, E2; auto.
      destruct (get_sign x); split; auto; lia.
Qed.

Lemma Math_max_cases (x y : number) :
  is_nan x = false -> is_nan y = false ->
  (Math_max x y = x \/ Math_max x y = y) /\
  rank (Math_max x y) = Z.max (rank x) (rank y).
Proof.
  intros Nx Ny. unfold Math_max. rewrite Nx, Ny. simpl.
  destruct (x <? y)%float eqn:E1.
  - apply ltb_rank in E1. split; [auto|lia].
  - destruct (y <? x)%float eqn:E2.
    + apply ltb_rank in E2. split; [auto|lia].
    + apply ltb_false_rank in E1, E2; auto.
      destruct (get_sign x); split; auto; lia.
Qed.

Lemma Math_min_nan (x y : number) :
  is_nan (Math_min x y) = is_nan x || is_nan y.
Proof.
  destruct (is_nan x) eqn:Nx; [unfold Math_min; now rewrite Nx|].
  destruct (is_nan y) eqn:Ny; [unfold Math_min; now rewrite Nx, Ny|].
  destruct (Math_min_cases x y Nx Ny) as ([->| ->] & _); simpl; assumption.
Qed.

Lemma Math_max_nan (x y : number) :
  is_nan (Math_max x y) = is_nan x || is_nan y.
Proof.
  destruct (is_nan x) eqn:Nx; [unfold Math_max; now rewrite Nx|].
  destruct (is_nan y) eqn:Ny; [unfold Math_max; now rewrite Nx, Ny|].
  destruct (Math_max_cases x y Nx Ny) as ([->| ->] & _); simpl; assumption.
Qed.

(** ** Integers as binary64 numbers *)

Lemma iter_xO_spec (p d : positive) :
  Zpos (Pos.iter xO p d) = Zpos p * 2 ^ Zpos d /\
  Zpos (digits2_pos (Pos.iter xO p d)) = Zpos (digits2_pos p) + Zpos d.
Proof.
  induction d as [|d IH] using Pos.peano_ind.
  - simpl Pos.iter. change (Zpos p~0) with (2 * Zpos p). simpl digits2_pos.
    rewrite Pos2Z.inj_succ. change (2 ^ 1) with 2. lia.
  - rewrite Pos.iter_succ. destruct IH as [IH1 IH2].
    change (Zpos (Pos.iter xO p d)~0) with (2 * Zpos (Pos.iter xO p d)).
    simpl digits2_pos. rewrite !Pos2Z.inj_succ, IH1, IH2.
    rewrite Z.pow_succ_r by lia. lia.
Qed.

Lemma binary_round_aux_canonical (s : bool) (m : positive) (e : Z) :
  fexp prec emax (Zpos (digits2_pos m) + e) = e ->
  e <= 971 ->
  binary_round_aux prec emax s (Zpos m) e loc_Exact = S754_finite s m e.
Proof.
  intros C B.
  cbv [binary_round_aux shr_fexp Zdigits2 shr_record_of_loc].
  rewrite C, Z.sub_diag. cbv [shr]. cbn [shr_m loc_of_shr_record round_nearest_even].
  cbv [Zdigits2]. rewrite C, Z.sub_diag. cbn [shr_m].
  replace (e <=? emax - prec) with true; [reflexivity|].
  symmetry. apply Z.leb_le. exact B.
Qed.

(** The mantissa and the exponent of the binary64 number equal to a positive
    integer below 2^53. *)
Lemma binary_round_integer (s : bool) (p : positive) :
  Zpos p < 2 ^ 53 ->
  exists m e,
    binary_round prec emax s p 0 = S754_finite s m e /\
    valid_binary (S754_finite s m e) = true /\
    e <= 0 /\ Zpos m = Zpos p * 2 ^ (- e).
Proof.
  intros U. pose proof (digits2_bounds p) as B.
  set (d := Zpos (digits2_pos p)) in *.
  assert (Hd : 1 <= d <= 53).
  { split; [unfold d; lia|].
    destruct (Z_le_gt_dec d 53) as [|G]; [assumption|exfalso].
    assert (2 ^ 53 <= 2 ^ (d - 1)) by (apply Z.pow_le_mono_r; lia). lia. }
  assert (F : fexp prec emax (d + 0) = d - 53).
  { unfold fexp, FloatOps.prec, FloatOps.emax, SpecFloat.emin. lia. }
  unfold binary_round. fold d. rewrite F. unfold shl_align.
  destruct (Z.eq_dec d 53) as [E53|N53].
  - rewrite E53. simpl (53 - 53 - 0).
    exists p, 0. split; [|split; [|split]].
    + apply binary_round_aux_canonical; [|lia].
      fold d. rewrite E53. reflexivity.
    + unfold valid_binary, bounded, canonical_mantissa. fold d. rewrite E53. reflexivity.
    + lia.
    + simpl. lia.
  - destruct (d - 53 - 0) as [|q|q] eqn:Eq; try lia.
    destruct (iter_xO_spec p q) as [I1 I2]. fold d in I2.
    assert (C : fexp prec emax (Zpos (digits2_pos (Pos.iter xO p q)) + (d - 53)) = d - 53).
    { rewrite I2. unfold fexp, FloatOps.prec, FloatOps.emax, SpecFloat.emin. lia. }
    exists (Pos.iter xO p q), (d - 53). split; [|split; [|split]].
    + apply binary_round_aux_canonical; [exact C|lia].
    + unfold valid_binary, bounded, canonical_mantissa. rewrite C.
      rewrite Z.eqb_refl. simpl. apply Z.leb_le. unfold FloatOps.prec, FloatOps.emax. lia.
    + lia.
    + rewrite I1. f_equal. f_equal. lia.
Qed.

Lemma Prim2SF_Z2F_pos (p : positive) :
  Zpos p < 2 ^ 53 ->
  exists m e,
    Prim2SF (Z2F (Zpos p)) = S754_finite false m e /\
    e <= 0 /\ Zpos m = Zpos p * 2 ^ (- e) /\ -1074 <= e.
Proof.
  intros U. destruct (binary_round_integer false p U) as (m & e & E & V & He & Hm).
  exists m, e. unfold Z2F. simpl binary_normalize. rewrite E.
  rewrite Prim2SF_SF2Prim by exact V. pose proof (valid_finite _ _ _ V). repeat split; auto; lia.
Qed.

Lemma Prim2SF_Z2F_neg (p : positive) :
  Zpos p < 2 ^ 53 ->
  exists m e,
    Prim2SF (Z2F (Zneg p)) = S754_finite true m e /\
    e <= 0 /\ Zpos m = Zpos p * 2 ^ (- e) /\ -1074 <= e.
Proof.
  intros U. destruct (binary_round_integer true p U) as (m & e & E & V & He & Hm).
  exists m, e. unfold Z2F. simpl binary_normalize. rewrite E.
  rewrite Prim2SF_SF2Prim by exact V. pose proof (valid_finite _ _ _ V). repeat split; auto; lia.
Qed.

Lemma pow2_split (m e : Z) (p : Z) :
  e <= 0 -> -1074 <= e -> m = p * 2 ^ (- e) -> m * 2 ^ (e + 1074) = p * 2 ^ 1074.
Proof.
  intros H1 H2 ->. rewrite <- Z.mul_assoc, <- Z.pow_add_r by lia. f_equal. f_equal. lia.
Qed.

Lemma rank_Z2F (n : Z) : Z.abs n < 2 ^ 53 -> rank (Z2F n) = n * 2 ^ 1074.
Proof.
  intros U. destruct n as [|p|p].
  - reflexivity.
  - destruct (Prim2SF_Z2F_pos p U) as (m & e & E & He & Hm & Hl).
    unfold rank. rewrite E. simpl. now apply pow2_split.
  - destruct (Prim2SF_Z2F_neg p U) as (m & e & E & He & Hm & Hl).
    unfold rank. rewrite E. cbn [SFrank cond_Zopp].
    rewrite (pow2_split _ _ (Zpos p)) by assumption. lia.
Qed.

Lemma is_nan_Z2F (n : Z) : Z.abs n < 2 ^ 53 -> is_nan (Z2F n) = false.
Proof.
  intros U. apply is_nan_false. destruct n as [|p|p].
  - discriminate.
  - destruct (Prim2SF_Z2F_pos p U) as (m & e & E & _). rewrite E. discriminate.
  - destruct (Prim2SF_Z2F_neg p U) as (m & e & E & _). rewrite E. discriminate.
Qed.

Lemma truncate_Z2F (n : Z) : Z.abs n < 2 ^ 53 -> truncate (Z2F n) = n.
Proof.
  intros U.
  assert (K : forall m e p, e <= 0 -> Zpos m = Zpos p * 2 ^ (- e) ->
            (if 0 <=? e then Zpos m * 2 ^ e else Zpos m / 2 ^ (- e)) = Zpos p).
  { intros m e p He Hm. destruct (Z.leb_spec 0 e).
    - replace e with 0 in * by lia. simpl in Hm. simpl. lia.
    - rewrite Hm. apply Z.div_mul. pose proof (pow2_pos (- e) ltac:(lia)). lia. }
  destruct n as [|p|p].
  - reflexivity.
  - destruct (Prim2SF_Z2F_pos p U) as (m & e & E & He & Hm & Hl).
    unfold truncate. rewrite E. cbn [cond_Zopp]. now apply K.
  - destruct (Prim2SF_Z2F_neg p U) as (m & e & E & He & Hm & Hl).
    unfold truncate. rewrite E. cbn [cond_Zopp]. rewrite (K m e p) by assumption. reflexivity.
Qed.

Lemma Z2F_lt (a b : Z) :
  Z.abs a < 2 ^ 53 -> Z.abs b < 2 ^ 53 ->
  ((Z2F a <? Z2F b)%float = true <-> a < b).
Proof.
  intros Ua Ub. rewrite ltb_rank, !rank_Z2F, !is_nan_Z2F by assumption.
  pose proof (pow2_pos 1074 ltac:(lia)). split.
  - intros (_ & _ & H1). nia.
  - intros. repeat split; auto. nia.
Qed.

Lemma Z2F_le (a b : Z) :
  Z.abs a < 2 ^ 53 -> Z.abs b < 2 ^ 53 ->
  ((Z2F a <=? Z2F b)%float = true <-> a <= b).
Proof.
  intros Ua Ub. rewrite leb_rank, !rank_Z2F, !is_nan_Z2F by assumption.
  pose proof (pow2_pos 1074 ltac:(lia)). split.
  - intros (_ & _ & H1). nia.
  - intros. repeat split; auto. nia.
Qed.


(** ** Parsing hexadecimal strings *)

Lemma parseDigits_allHex (s : string) (acc : Z) (len : nat) :
  allHex s = true ->
  parseDigits 16 s acc len = (hexValueFrom acc s, (len + String.length s)%nat).
Proof.
  revert acc len. induction s as [|c s IH]; intros acc len H; simpl.
  - f_equal. lia.
  - simpl in H. apply andb_prop in H. destruct H as [Hc Hs].
    unfold isHexDigit, hexDigit in *. destruct (digitValue c) as [d|]; [|discriminate].
    rewrite Hc, IH by assumption. f_equal. lia.
Qed.

Lemma hexValueFrom_bounds (s : string) (acc : Z) :
  allHex s = true -> 0 <= acc ->
  acc * 16 ^ Z.of_nat (String.length s) <= hexValueFrom acc s
    < (acc + 1) * 16 ^ Z.of_nat (String.length s).
Proof.
  revert acc. induction s as [|c s IH]; intros acc H Ha.
  - simpl. lia.
  - simpl in H. apply andb_prop in H. destruct H as [Hc Hs].
    assert (Hd : 0 <= hexDigit c < 16).
    { unfold isHexDigit, hexDigit, digitValue in *.
      destruct ((48 <=? code c) && (code c <=? 57))%Z eqn:E1;
        [|destruct ((97 <=? code c) && (code c <=? 122))%Z eqn:E2;
          [|destruct ((65 <=? code c) && (code c <=? 90))%Z eqn:E3; [|discriminate]]];
        lia. }
    cbn [hexValueFrom String.length]. rewrite Nat2Z.inj_succ, Z.pow_succ_r by lia.
    specialize (IH (acc * 16 + hexDigit c) Hs ltac:(lia)).
    assert (P : 0 < 16 ^ Z.of_nat (String.length s)) by (apply Z.pow_pos_nonneg; lia).
    nia.
Qed.

Lemma isHexDigit_plain (c : ascii) :
  isHexDigit c = true ->
  isWhiteSpace c = false /\ c <> "-"%char /\ c <> "+"%char /\
  c <> "x"%char /\ c <> "X"%char /\ c <> "#"%char.
Proof.
  intros H.
  assert (K : forall c', isHexDigit c' = false -> c <> c') by (intros c' H' ->; congruence).
  split; [|repeat split; apply K; reflexivity].
  destruct c as [[] [] [] [] [] [] [] []]; try reflexivity; discriminate.
Qed.

(** [parseInt] reads a non-empty string of hexadecimal digits as its value in
    base 16. *)
Lemma parseInt_allHex (s : string) :
  allHex s = true -> s <> EmptyString ->
  parseInt s 16 = Z2F (hexValue s).
Proof.
  intros H Hne. destruct s as [|c s]; [congruence|].
  pose proof H as H0. simpl in H0. apply andb_prop in H0. destruct H0 as [Hc Hs].
  destruct (isHexDigit_plain c Hc) as (W & Nm & Np & _).
  unfold parseInt. cbn [trimStart]. rewrite W.
  assert (E1 : (match String c s with
                | String "-" s' => (true, s')
                | String "+" s' => (false, s')
                | _ => (false, String c s)
                end) = (false, String c s)).
  { destruct c as [[] [] [] [] [] [] [] []]; try reflexivity; congruence. }
  rewrite E1. simpl (16 =? 16)%Z. cbv iota.
  assert (E2 : stripHexPrefix (String c s) = String c s).
  { destruct s as [|c2 s2]; [destruct c as [[] [] [] [] [] [] [] []]; reflexivity|].
    simpl in Hs. apply andb_prop in Hs. destruct Hs as [Hc2 _].
    destruct (isHexDigit_plain c2 Hc2) as (_ & _ & _ & Nx & NX & _).
    unfold stripHexPrefix.
    destruct c as [[] [] [] [] [] [] [] []]; try reflexivity;
      destruct c2 as [[] [] [] [] [] [] [] []]; try reflexivity; congruence. }
  rewrite E2, parseDigits_allHex by assumption.
  cbn [String.length Nat.add]. unfold Z2F, hexValue. cbn [cond_Zopp].
  destruct (hexValueFrom 0 (String c s)); reflexivity.
Qed.

Lemma ToUint32_Z2F (n : Z) : 0 <= n < 2 ^ 32 -> ToUint32 (Z2F n) = n.
Proof.
  intros H. unfold ToUint32. rewrite truncate_Z2F.
  - apply Z.mod_small. exact H.
  - assert (2 ^ 32 < 2 ^ 53) by (apply Z.pow_lt_mono_r; lia). lia.
Qed.

Lemma ToInt32_Z2F (n : Z) : 0 <= n < 2 ^ 31 -> ToInt32 (Z2F n) = n.
Proof.
  intros H. unfold ToInt32.
  assert (2 ^ 31 < 2 ^ 32) by (apply Z.pow_lt_mono_r; lia).
  rewrite ToUint32_Z2F by lia.
  destruct (Z.leb_spec (2 ^ 31) n); lia.
Qed.

Lemma land_255 (a : Z) : Z.land a 255 = a mod 256 /\ 0 <= a mod 256 <= 255.
Proof.
  split.
  - change 255 with (Z.ones 8). rewrite Z.land_ones by lia. reflexivity.
  - pose proof (Z.mod_pos_bound a 256 ltac:(lia)). lia.
Qed.

Lemma js_and_255 (x : number) :
  js_and x (Z2F 255) = Z2F (ToInt32 x mod 256).
Proof.
  unfold js_and. rewrite (ToInt32_Z2F 255) by (split; [lia|reflexivity]).
  now rewrite (proj1 (land_255 _)).
Qed.

Lemma js_shr_Z2F (v k : Z) :
  0 <= v < 2 ^ 31 -> 0 <= k < 32 ->
  js_shr (Z2F v) (Z2F k) = Z2F (v / 2 ^ k).
Proof.
  intros Hv Hk. unfold js_shr. rewrite ToInt32_Z2F by assumption.
  rewrite ToUint32_Z2F.
  - rewrite Z.mod_small by lia. now rewrite Z.shiftr_div_pow2 by lia.
  - assert (2 ^ 5 < 2 ^ 32) by (apply Z.pow_lt_mono_r; lia). change (2 ^ 5) with 32 in *. lia.
Qed.

(** The three channels read from a parsed 24-bit value. *)
Lemma channels_of (v : Z) :
  0 <= v < 2 ^ 24 ->
  js_and (js_shr (Z2F v) (Z2F 16)) (Z2F 255) = Z2F (v / 65536) /\
  js_and (js_shr (Z2F v) (Z2F 8)) (Z2F 255) = Z2F (v / 256 mod 256) /\
  js_and (Z2F v) (Z2F 255) = Z2F (v mod 256).
Proof.
  intros H. change (2 ^ 24) with 16777216 in H.
  assert (B : 0 <= v < 2 ^ 31) by (change (2 ^ 31) with 2147483648; lia).
  rewrite !js_and_255, !js_shr_Z2F by (auto; lia).
  change (2 ^ 16) with 65536. change (2 ^ 8) with 256.
  assert (0 <= v / 65536 < 256).
  { split; [apply Z.div_pos; lia|apply Z.div_lt_upper_bound; lia]. }
  assert (0 <= v / 256 < 65536).
  { split; [apply Z.div_pos; lia|apply Z.div_lt_upper_bound; lia]. }
  rewrite !ToInt32_Z2F by (change (2 ^ 31) with 2147483648; lia).
  rewrite (Z.mod_small (v / 65536)) by lia. auto.
Qed.

Lemma hexDigit_bounds (c : ascii) : isHexDigit c = true -> 0 <= hexDigit c < 16.
Proof.
  unfold isHexDigit, hexDigit, digitValue.
  destruct ((48 <=? code c) && (code c <=? 57))%Z eqn:E1;
    [|destruct ((97 <=? code c) && (code c <=? 122))%Z eqn:E2;
      [|destruct ((65 <=? code c) && (code c <=? 90))%Z eqn:E3; [|discriminate]]];
    lia.
Qed.

Lemma hexToRgb_of_value (s : string) :
  (String.length s = 3%nat \/ String.length s = 6%nat) ->
  allHex s = true ->
  let h := if (String.length s =? 3)%nat then doubleChars s else s in
  allHex h = true /\ String.length h = 6%nat /\
  hexToRgb s =
    Return (rgbOf (hexValue h / 65536) (hexValue h / 256 mod 256) (hexValue h mod 256)) /\
  hexToRgb (String "#" s) = hexToRgb s.
Proof.
  intros Hlen Hhex. cbv zeta.
  assert (Hs : stripHash s = s).
  { destruct s as [|c s]; [reflexivity|]. simpl in Hhex. apply andb_prop in Hhex.
    destruct (isHexDigit_plain c (proj1 Hhex)) as (_ & _ & _ & _ & _ & N).
    unfold stripHash. destruct c as [[] [] [] [] [] [] [] []]; try reflexivity; congruence. }
  assert (Hd : forall t, allHex t = true -> allHex (doubleChars t) = true).
  { induction t as [|c t IH]; [reflexivity|]. simpl. intros H.
    apply andb_prop in H. destruct H as [H1 H2]. now rewrite H1, IH. }
  assert (Hl : forall t, String.length (doubleChars t) = (2 * String.length t)%nat).
  { induction t as [|c t IH]; [reflexivity|]. simpl. rewrite IH. lia. }
  set (h := if (String.length s =? 3)%nat then doubleChars s else s).
  assert (Hh : allHex h = true) by (unfold h; destruct (String.length s =? 3)%nat; auto).
  assert (Hh6 : String.length h = 6%nat).
  { unfold h. destruct (Nat.eqb_spec (String.length s) 3) as [E|E]; [rewrite Hl|]; lia. }
  split; [assumption|]. split; [assumption|]. split.
  - unfold hexToRgb. rewrite Hs. fold h.
    replace (negb (String.length s =? 3)%nat && negb (String.length s =? 6)%nat) with false.
    + rewrite parseInt_allHex; [|assumption|destruct h; [discriminate|congruence]].
      pose proof (hexValueFrom_bounds h 0 Hh ltac:(lia)) as B. rewrite Hh6 in B.
      fold (hexValue h) in B. change (16 ^ Z.of_nat 6) with (2 ^ 24) in B.
      destruct (channels_of (hexValue h) ltac:(lia)) as (C1 & C2 & C3).
      unfold rgbOf. now rewrite C1, C2, C3.
    + destruct Hlen as [-> | ->]; reflexivity.
  - unfold hexToRgb at 1. cbn [stripHash]. unfold hexToRgb. now rewrite Hs.
Qed.

Lemma split24 (a b c : Z) :
  0 <= a -> 0 <= b < 256 -> 0 <= c < 256 ->
  (a * 65536 + b * 256 + c) / 65536 = a /\
  (a * 65536 + b * 256 + c) / 256 mod 256 = b /\
  (a * 65536 + b * 256 + c) mod 256 = c.
Proof.
  intros Ha Hb Hc.
  assert (E1 : (a * 65536 + b * 256 + c) / 65536 = a)
    by (symmetry; apply Z.div_unique with (b * 256 + c); lia).
  assert (E2 : (a * 65536 + b * 256 + c) / 256 = a * 256 + b)
    by (symmetry; apply Z.div_unique with c; lia).
  assert (E3 : (a * 65536 + b * 256 + c) mod 256 = c)
    by (symmetry; apply Z.mod_unique with (a * 256 + b); lia).
  rewrite E1, E2, E3. repeat split.
  symmetry; apply Z.mod_unique with a; lia.
Qed.

Lemma hexToRgb_pairs (c1 c2 c3 c4 c5 c6 : ascii) :
  isHexDigit c1 = true -> isHexDigit c2 = true -> isHexDigit c3 = true ->
  isHexDigit c4 = true -> isHexDigit c5 = true -> isHexDigit c6 = true ->
  let s := String c1 (String c2 (String c3 (String c4 (String c5 (String c6 ""))))) in
  let rgb := rgbOf (16 * hexDigit c1 + hexDigit c2)
                   (16 * hexDigit c3 + hexDigit c4)
                   (16 * hexDigit c5 + hexDigit c6) in
  hexToRgb s = Return rgb /\ hexToRgb (String "#" s) = Return rgb.
Proof.
  intros H1 H2 H3 H4 H5 H6 s rgb.
  assert (Hhex : allHex s = true) by (simpl; now rewrite H1, H2, H3, H4, H5, H6).
  destruct (hexToRgb_of_value s (or_intror eq_refl) Hhex) as (_ & _ & E & E').
  change (if (String.length s =? 3)%nat then doubleChars s else s) with s in E.
  rewrite E', E.
  apply hexDigit_bounds in H1, H2, H3, H4, H5, H6.
  assert (V : hexValue s = (16 * hexDigit c1 + hexDigit c2) * 65536
                           + (16 * hexDigit c3 + hexDigit c4) * 256
                           + (16 * hexDigit c5 + hexDigit c6)).
  { unfold hexValue, s. cbn [hexValueFrom]. lia. }
  rewrite V. unfold rgb.
  destruct (split24 (16 * hexDigit c1 + hexDigit c2) (16 * hexDigit c3 + hexDigit c4)
              (16 * hexDigit c5 + hexDigit c6)) as (-> & -> & ->); try lia.
  auto.
Qed.

(** Six hexadecimal digits, with or without a leading [#], are read pairwise
    as the red, green and blue channels. *)
Theorem hexToRgb_six_digits (c1 c2 c3 c4 c5 c6 : ascii) :
  isHexDigit c1 = true -> isHexDigit c2 = true -> isHexDigit c3 = true ->
  isHexDigit c4 = true -> isHexDigit c5 = true -> isHexDigit c6 = true ->
  let s := String c1 (String c2 (String c3 (String c4 (String c5 (String c6 ""))))) in
  let rgb := rgbOf (16 * hexDigit c1 + hexDigit c2)
                   (16 * hexDigit c3 + hexDigit c4)
                   (16 * hexDigit c5 + hexDigit c6) in
  hexToRgb s = Return rgb /\ hexToRgb (String "#" s) = Return rgb.
Proof. exact (hexToRgb_pairs c1 c2 c3 c4 c5 c6). Qed.

Lemma hexToRgb_six_digits_witness :
  hexToRgb "1a2B3c" = Return (rgbOf 26 43 60) /\
  hexToRgb "#1a2B3c" = Return (rgbOf 26 43 60).
Proof.
  apply (hexToRgb_six_digits "1" "a" "2" "B" "3" "c"); reflexivity.
Defined.

(** The 3-digit shorthand doubles every digit: a digit [d] gives the channel
    [17 * d]. *)
Theorem hexToRgb_shorthand (c1 c2 c3 : ascii) :
  isHexDigit c1 = true -> isHexDigit c2 = true -> isHexDigit c3 = true ->
  let s := String c1 (String c2 (String c3 "")) in
  let rgb := rgbOf (17 * hexDigit c1) (17 * hexDigit c2) (17 * hexDigit c3) in
  hexToRgb s = Return rgb /\ hexToRgb (String "#" s) = Return rgb.
Proof.
  intros H1 H2 H3 s rgb.
  assert (E : hexToRgb s = hexToRgb (doubleChars s) /\
              hexToRgb (String "#" s) = hexToRgb (String "#" (doubleChars s))).
  { assert (Hhex : allHex s = true) by (simpl; now rewrite H1, H2, H3).
    destruct (hexToRgb_of_value s (or_introl eq_refl) Hhex) as (A1 & A2 & A3 & A4).
    destruct (hexToRgb_of_value (doubleChars s) (or_intror eq_refl) A1) as (_ & _ & B3 & B4).
    rewrite A4, B4, A3, B3. auto. }
  destruct E as [-> ->].
  destruct (hexToRgb_pairs c1 c1 c2 c2 c3 c3 H1 H1 H2 H2 H3 H3) as [E1 E2].
  cbv zeta in E1, E2. unfold s. cbn [doubleChars]. rewrite E1, E2.
  unfold rgb. replace (16 * hexDigit c1 + hexDigit c1) with (17 * hexDigit c1) by lia.
  replace (16 * hexDigit c2 + hexDigit c2) with (17 * hexDigit c2) by lia.
  replace (16 * hexDigit c3 + hexDigit c3) with (17 * hexDigit c3) by lia. auto.
Qed.

Lemma hexToRgb_shorthand_witness :
  hexToRgb "fA0" = Return (rgbOf 255 170 0) /\
  hexToRgb "#fA0" = Return (rgbOf 255 170 0).
Proof.
  apply (hexToRgb_shorthand "f" "A" "0"); reflexivity.
Defined.

(** Whatever string it is given, [hexToRgb] either throws ["Bad hex"] or
    returns three integers between 0 and 255. *)
Theorem hexToRgb_channels (hex : string) :
  hexToRgb hex = Throw "Bad hex" \/
  exists r g b,
    0 <= r <= 255 /\ 0 <= g <= 255 /\ 0 <= b <= 255 /\
    hexToRgb hex = Return (rgbOf r g b).
Proof.
  unfold hexToRgb.
  destruct (negb (String.length (stripHash hex) =? 3)%nat &&
            negb (String.length (stripHash hex) =? 6)%nat); [now left|right].
  rewrite !js_and_255. do 3 eexists.
  split; [|split; [|split; [|reflexivity]]]; apply land_255.
Qed.


(** ** The native module *)

Lemma int_small (n : Z) : - 2 ^ 31 <= n < 2 ^ 31 -> Java.int n = n.
Proof.
  intros H. unfold Java.int.
  change (2 ^ 32) with 4294967296. change (2 ^ 31) with 2147483648 in *.
  rewrite Z.mod_small by lia. lia.
Qed.

Lemma long_small (n : Z) : - 2 ^ 63 <= n < 2 ^ 63 -> Java.long n = n.
Proof.
  intros H. unfold Java.long.
  change (2 ^ 64) with 18446744073709551616. change (2 ^ 63) with 9223372036854775808 in *.
  rewrite Z.mod_small by lia. lia.
Qed.

Lemma channel_bounds (c : Z) :
  0 <= Java.red c <= 255 /\ 0 <= Java.green c <= 255 /\ 0 <= Java.blue c <= 255.
Proof.
  unfold Java.red, Java.green, Java.blue.
  rewrite !(proj1 (land_255 _)). repeat split; apply land_255.
Qed.

Lemma range_In (a b x : Z) : In x (Java.range a b) <-> a <= x < b.
Proof.
  unfold Java.range. rewrite in_map_iff. split.
  - intros (i & <- & Hi). apply in_seq in Hi. lia.
  - intros H. exists (Z.to_nat (x - a)). split; [lia|]. apply in_seq. lia.
Qed.

Lemma range_length (a b : Z) : length (Java.range a b) = Z.to_nat (b - a).
Proof. unfold Java.range. now rewrite length_map, length_seq. Qed.

Lemma sumArea_flat (bitmap : Java.Bitmap) (xs ys : list Z) (acc : Java.result Java.Sums) :
  fold_left
    (fun acc x =>
       fold_left (fun acc y => Java.andThen acc (Java.addPixel bitmap x y)) ys acc)
    xs acc
  = fold_left (fun acc p => Java.andThen acc (Java.addPixel bitmap (fst p) (snd p)))
      (list_prod xs ys) acc.
Proof.
  revert acc. induction xs as [|x xs IH]; intros acc; [reflexivity|].
  simpl. rewrite fold_left_app, IH. f_equal.
  clear. revert acc. induction ys as [|y ys IH]; intros acc; [reflexivity|].
  simpl. apply IH.
Qed.

(** Adding up in-bounds pixels cannot overflow and counts them. *)
Lemma fold_addPixel (bitmap : Java.Bitmap) (area : list (Z * Z)) (acc : Java.Sums) :
  (forall p, In p area ->
     0 <= fst p < Java.getWidth bitmap /\ 0 <= snd p < Java.getHeight bitmap) ->
  0 <= Java.pixelCount acc ->
  Java.pixelCount acc + Z.of_nat (length area) < 2 ^ 31 ->
  0 <= Java.redSum acc <= 255 * Java.pixelCount acc ->
  0 <= Java.greenSum acc <= 255 * Java.pixelCount acc ->
  0 <= Java.blueSum acc <= 255 * Java.pixelCount acc ->
  fold_left (fun acc p => Java.andThen acc (Java.addPixel bitmap (fst p) (snd p)))
    area (Java.Ok acc)
  = Java.Ok
      {| Java.redSum := Java.redSum acc
           + sumZ (map (fun p => Java.red (Java.pixelAt bitmap (fst p) (snd p))) area);
         Java.greenSum := Java.greenSum acc
           + sumZ (map (fun p => Java.green (Java.pixelAt bitmap (fst p) (snd p))) area);
         Java.blueSum := Java.blueSum acc
           + sumZ (map (fun p => Java.blue (Java.pixelAt bitmap (fst p) (snd p))) area);
         Java.pixelCount := Java.pixelCount acc + Z.of_nat (length area) |}.
Proof.
  revert acc. induction area as [|p area IH]; intros acc Hin Hc Hn Hr Hg Hb.
  - simpl. destruct acc; simpl. f_equal. f_equal; lia.
  - cbn [fold_left Java.andThen].
    destruct (Hin p (or_introl eq_refl)) as [Hx Hy].
    unfold Java.addPixel at 2, Java.getPixel.
    replace ((0 <=? fst p) && (fst p <? Java.getWidth bitmap) && (0 <=? snd p)
             && (snd p <? Java.getHeight bitmap)) with true
      by (symmetry; rewrite !andb_true_iff; repeat split; lia).
    cbn [Java.andThen].
    destruct (channel_bounds (Java.pixelAt bitmap (fst p) (snd p))) as (Br & Bg & Bb).
    cbn [length] in Hn. rewrite Nat2Z.inj_succ in Hn.
    assert (P31 : 2 ^ 31 = 2147483648) by reflexivity.
    assert (P63 : 2 ^ 63 = 9223372036854775808) by reflexivity.
    rewrite !long_small, int_small by lia.
    rewrite IH; cbn [Java.redSum Java.greenSum Java.blueSum Java.pixelCount]; try lia.
    + cbn [map sumZ fold_right length]. rewrite Nat2Z.inj_succ. f_equal. f_equal; unfold sumZ; lia.
    + intros q Hq. apply Hin. now right.
Qed.

Lemma sumZ_bounds (f : Z * Z -> Z) (area : list (Z * Z)) :
  (forall p, 0 <= f p <= 255) ->
  0 <= sumZ (map f area) <= 255 * Z.of_nat (length area).
Proof.
  intros H. induction area as [|p area IH]; simpl; [lia|].
  specialize (H p). lia.
Qed.

Ltac divlia := Z.to_euclidean_division_equations; lia.

Lemma centreSquare_length (width height : Z) :
  1 <= width -> 1 <= height ->
  Z.of_nat (length (centreSquare width height))
  = (2 * (Z.min width height / 10 / 2)) * (2 * (Z.min width height / 10 / 2)).
Proof.
  intros Hw Hh. unfold centreSquare. rewrite length_prod, !range_length.
  rewrite Nat2Z.inj_mul, !Z2Nat.id by divlia. f_equal; lia.
Qed.

Lemma centreSquare_inside (width height : Z) (p : Z * Z) :
  1 <= width -> 1 <= height ->
  In p (centreSquare width height) ->
  0 <= fst p < width /\ 0 <= snd p < height.
Proof.
  intros Hw Hh. unfold centreSquare. destruct p as [x y].
  rewrite in_prod_iff, !range_In. simpl. divlia.
Qed.

(** What the [try] block computes, for a bitmap of a sensible size. *)
Lemma averageOfCentre_spec (bitmap : Java.Bitmap) :
  let width := Java.getWidth bitmap in
  let height := Java.getHeight bitmap in
  let area := centreSquare width height in
  1 <= width < 2 ^ 31 -> 1 <= height < 2 ^ 31 ->
  Z.min width height <= 300000 ->
  Java.averageOfCentre bitmap =
    if Z.min width height <? 20 then Java.Raise Java.ArithmeticException
    else
      let r := channelMean Java.red bitmap area in
      let g := channelMean Java.green bitmap area in
      let b := channelMean Java.blue bitmap area in
      Java.Ok {| Java.hex := Java.formatColor r g b;
                 Java.r := r; Java.g := g; Java.b := b;
                 Java.isDark := (r + g + b) / 3 <? 30;
                 Java.brightness := (r + g + b) / 3 |}.
Proof.
  intros width height area Hw Hh Hmin.
  assert (P31 : 2 ^ 31 = 2147483648) by reflexivity. rewrite P31 in *.
  unfold Java.averageOfCentre. fold width height.
  set (half := Z.min width height / 10 / 2).
  assert (Hhalf : 0 <= half <= 15000) by (unfold half; divlia).
  assert (Hhw : half <= width / 2 /\ width / 2 + half <= width) by (unfold half; divlia).
  assert (Hhh : half <= height / 2 /\ height / 2 + half <= height) by (unfold half; divlia).
  rewrite !(Z.quot_div_nonneg width 2), !(Z.quot_div_nonneg height 2),
    (Z.quot_div_nonneg (Z.min width height) 10) by lia.
  rewrite (int_small (width / 2)), (int_small (height / 2)),
    (int_small (Z.min width height / 10)) by (rewrite P31; divlia).
  rewrite (Z.quot_div_nonneg (Z.min width height / 10) 2) by divlia.
  fold half. rewrite (int_small half) by lia.
  rewrite !(int_small (_ - half)), !(int_small (_ + half)) by lia.
  rewrite !Z.max_r, !Z.min_r by lia.
  unfold Java.sumArea. rewrite sumArea_flat.
  change (list_prod _ _) with area.
  pose proof (centreSquare_length width height ltac:(lia) ltac:(lia)) as Hlen.
  fold area half in Hlen.
  rewrite fold_addPixel; cbn [Java.redSum Java.greenSum Java.blueSum Java.pixelCount];
    try lia.
  2:{ intros p Hp. apply centreSquare_inside; [lia|lia|exact Hp]. }
  2:{ rewrite Hlen. nia. }
  cbn [Java.andThen Java.redSum Java.greenSum Java.blueSum Java.pixelCount].
  rewrite !Z.add_0_l.
  destruct (Z.ltb_spec (Z.min width height) 20) as [Hs|Hs].
  - assert (half = 0) by (unfold half; divlia).
    assert (E : Z.of_nat (length area) = 0) by (rewrite Hlen; lia).
    rewrite E. reflexivity.
  - assert (1 <= half) by (unfold half; divlia).
    assert (Hn : 1 <= Z.of_nat (length area) <= 900000000) by (rewrite Hlen; nia).
    unfold Java.ldiv.
    replace (Z.of_nat (length area) =? 0) with false by (symmetry; apply Z.eqb_neq; lia).
    cbn [Java.andThen].
    pose proof (sumZ_bounds (fun p => Java.red (Java.pixelAt bitmap (fst p) (snd p))) area
                  (fun p => proj1 (channel_bounds _))) as Br.
    pose proof (sumZ_bounds (fun p => Java.green (Java.pixelAt bitmap (fst p) (snd p))) area
                  (fun p => proj1 (proj2 (channel_bounds _)))) as Bg.
    pose proof (sumZ_bounds (fun p => Java.blue (Java.pixelAt bitmap (fst p) (snd p))) area
                  (fun p => proj2 (proj2 (channel_bounds _)))) as Bb.
    rewrite !Z.quot_div_nonneg by lia.
    fold (channelMean Java.red bitmap area) (channelMean Java.green bitmap area)
         (channelMean Java.blue bitmap area).
    assert (Mr : 0 <= channelMean Java.red bitmap area <= 255).
    { unfold channelMean. split; [apply Z.div_pos; lia|].
      apply Z.div_le_upper_bound; lia. }
    assert (Mg : 0 <= channelMean Java.green bitmap area <= 255).
    { unfold channelMean. split; [apply Z.div_pos; lia|].
      apply Z.div_le_upper_bound; lia. }
    assert (Mb : 0 <= channelMean Java.blue bitmap area <= 255).
    { unfold channelMean. split; [apply Z.div_pos; lia|].
      apply Z.div_le_upper_bound; lia. }
    assert (P63 : 2 ^ 63 = 9223372036854775808) by reflexivity.
    rewrite !long_small by lia.
    set (r := channelMean Java.red bitmap area) in *.
    set (g := channelMean Java.green bitmap area) in *.
    set (b := channelMean Java.blue bitmap area) in *.
    rewrite (int_small r), (int_small g), (int_small b) by lia.
    rewrite (int_small (r + g)) by lia. rewrite (int_small (r + g + b)) by lia.
    rewrite Z.quot_div_nonneg by lia.
    rewrite (int_small ((r + g + b) / 3)) by (rewrite P31; divlia).
    reflexivity.
Qed.

(** A decoded bitmap whose smaller side has fewer than 20 pixels leaves the
    sample area empty: the average divides by zero and the promise is
    rejected with [EXTRACTION_ERROR]. *)
Theorem extractColorFromImage_small_bitmap
    (env : Java.Env) (imagePath : string) (bitmap : Java.Bitmap) :
  Java.fileExists env (Java.removeAll "file://" imagePath) = true ->
  Java.decodeFile env (Java.removeAll "file://" imagePath) 8 = Some bitmap ->
  1 <= Java.getWidth bitmap < 2 ^ 31 ->
  1 <= Java.getHeight bitmap < 2 ^ 31 ->
  Z.min (Java.getWidth bitmap) (Java.getHeight bitmap) < 20 ->
  Java.extractColorFromImage env imagePath
  = Java.Rejected "EXTRACTION_ERROR"
      ("Failed to extract color: " ++ Java.getMessage env Java.ArithmeticException).
Proof.
  intros He Hd Hw Hh Hs. unfold Java.extractColorFromImage.
  rewrite He, Hd. cbn [negb].
  rewrite averageOfCentre_spec by lia.
  replace (Z.min (Java.getWidth bitmap) (Java.getHeight bitmap) <? 20) with true
    by (symmetry; apply Z.ltb_lt; exact Hs).
  reflexivity.
Qed.

Lemma extractColorFromImage_small_bitmap_witness :
  Java.extractColorFromImage (envWith (plainBitmap 640 19 (-1))) "file:///tmp/a.jpg"
  = Java.Rejected "EXTRACTION_ERROR" "Failed to extract color: divide by zero".
Proof.
  apply (extractColorFromImage_small_bitmap
           (envWith (plainBitmap 640 19 (-1))) "file:///tmp/a.jpg" (plainBitmap 640 19 (-1)));
    simpl; try reflexivity; lia.
Defined.

Lemma extract_means
    (env : Java.Env) (imagePath : string) (bitmap : Java.Bitmap) :
  Java.fileExists env (Java.removeAll "file://" imagePath) = true ->
  Java.decodeFile env (Java.removeAll "file://" imagePath) 8 = Some bitmap ->
  1 <= Java.getWidth bitmap < 2 ^ 31 ->
  1 <= Java.getHeight bitmap < 2 ^ 31 ->
  20 <= Z.min (Java.getWidth bitmap) (Java.getHeight bitmap) <= 300000 ->
  let area := centreSquare (Java.getWidth bitmap) (Java.getHeight bitmap) in
  let r := channelMean Java.red bitmap area in
  let g := channelMean Java.green bitmap area in
  let b := channelMean Java.blue bitmap area in
  Java.extractColorFromImage env imagePath
  = Java.Resolved {| Java.hex := Java.formatColor r g b;
                     Java.r := r; Java.g := g; Java.b := b;
                     Java.isDark := (r + g + b) / 3 <? 30;
                     Java.brightness := (r + g + b) / 3 |} /\
  area <> [] /\ 0 <= r <= 255 /\ 0 <= g <= 255 /\ 0 <= b <= 255.
Proof.
  intros He Hd Hw Hh Hs area r g b. split.
  - unfold Java.extractColorFromImage. rewrite He, Hd. cbn [negb].
    rewrite averageOfCentre_spec by lia.
    replace (Z.min (Java.getWidth bitmap) (Java.getHeight bitmap) <? 20) with false
      by (symmetry; apply Z.ltb_ge; lia).
    reflexivity.
  - pose proof (centreSquare_length (Java.getWidth bitmap) (Java.getHeight bitmap)
                  ltac:(lia) ltac:(lia)) as Hlen. fold area in Hlen.
    assert (1 <= Z.min (Java.getWidth bitmap) (Java.getHeight bitmap) / 10 / 2) by divlia.
    assert (Hn : 1 <= Z.of_nat (length area)) by (rewrite Hlen; nia).
    split; [intros E; rewrite E in Hn; simpl in Hn; lia|].
    pose proof (sumZ_bounds (fun p => Java.red (Java.pixelAt bitmap (fst p) (snd p))) area
                  (fun p => proj1 (channel_bounds _))) as Br.
    pose proof (sumZ_bounds (fun p => Java.green (Java.pixelAt bitmap (fst p) (snd p))) area
                  (fun p => proj1 (proj2 (channel_bounds _)))) as Bg.
    pose proof (sumZ_bounds (fun p => Java.blue (Java.pixelAt bitmap (fst p) (snd p))) area
                  (fun p => proj2 (proj2 (channel_bounds _)))) as Bb.
    unfold r, g, b, channelMean.
    repeat split; try (apply Z.div_pos; lia); apply Z.div_le_upper_bound; lia.
Qed.

(** For a larger bitmap the promise is resolved with the truncated means of
    the three channels over the centre square, each between 0 and 255, and
    no pixel outside the bitmap is read. *)
Theorem extractColorFromImage_means
    (env : Java.Env) (imagePath : string) (bitmap : Java.Bitmap) :
  Java.fileExists env (Java.removeAll "file://" imagePath) = true ->
  Java.decodeFile env (Java.removeAll "file://" imagePath) 8 = Some bitmap ->
  1 <= Java.getWidth bitmap < 2 ^ 31 ->
  1 <= Java.getHeight bitmap < 2 ^ 31 ->
  20 <= Z.min (Java.getWidth bitmap) (Java.getHeight bitmap) <= 300000 ->
  let area := centreSquare (Java.getWidth bitmap) (Java.getHeight bitmap) in
  let r := channelMean Java.red bitmap area in
  let g := channelMean Java.green bitmap area in
  let b := channelMean Java.blue bitmap area in
  Java.extractColorFromImage env imagePath
  = Java.Resolved {| Java.hex := Java.formatColor r g b;
                     Java.r := r; Java.g := g; Java.b := b;
                     Java.isDark := (r + g + b) / 3 <? 30;
                     Java.brightness := (r + g + b) / 3 |} /\
  area <> [] /\ 0 <= r <= 255 /\ 0 <= g <= 255 /\ 0 <= b <= 255.
Proof. exact (extract_means env imagePath bitmap). Qed.

Lemma extractColorFromImage_means_witness :
  Java.extractColorFromImage (envWith (plainBitmap 40 30 (-8355585))) "file:///tmp/a.jpg"
  = Java.Resolved {| Java.hex := "#8080FF"; Java.r := 128; Java.g := 128; Java.b := 255;
                     Java.isDark := false; Java.brightness := 170 |}.
Proof.
  refine (proj1 (extractColorFromImage_means
           (envWith (plainBitmap 40 30 (-8355585))) "file:///tmp/a.jpg"
           (plainBitmap 40 30 (-8355585)) _ _ _ _ _));
    simpl; try reflexivity; lia.
Defined.

(** ** From the native module to [hexToRgb] *)

Lemma byteFormatOk_all : forallb byteFormatOk (Java.range 0 256) = true.
Proof. vm_compute. reflexivity. Qed.

Lemma format02X_byte (n : Z) :
  0 <= n <= 255 ->
  exists c1 c2,
    Java.format02X n = String c1 (String c2 EmptyString) /\
    isHexDigit c1 = true /\ isHexDigit c2 = true /\
    16 * hexDigit c1 + hexDigit c2 = n.
Proof.
  intros H. pose proof byteFormatOk_all as A. rewrite forallb_forall in A.
  specialize (A n ltac:(apply range_In; lia)). unfold byteFormatOk in A.
  destruct (Java.format02X n) as [|c1 [|c2 [|]]]; try discriminate.
  apply andb_prop in A. destruct A as [A A3]. apply andb_prop in A. destruct A as [A1 A2].
  exists c1, c2. repeat split; auto. now apply Z.eqb_eq.
Qed.

Lemma formatColor_read_back (r g b : Z) :
  0 <= r <= 255 -> 0 <= g <= 255 -> 0 <= b <= 255 ->
  hexToRgb (Java.formatColor r g b) = Return (rgbOf r g b).
Proof.
  intros Hr Hg Hb.
  destruct (format02X_byte r Hr) as (r1 & r2 & Er & R1 & R2 & Vr).
  destruct (format02X_byte g Hg) as (g1 & g2 & Eg & G1 & G2 & Vg).
  destruct (format02X_byte b Hb) as (b1 & b2 & Eb & B1 & B2 & Vb).
  unfold Java.formatColor. rewrite Er, Eg, Eb. cbn [String.append].
  destruct (hexToRgb_pairs r1 r2 g1 g2 b1 b2 R1 R2 G1 G2 B1 B2) as [_ E].
  cbv zeta in E.
  change (hexToRgb (String "#" (String r1 (String r2
            (String g1 (String g2 (String b1 (String b2 EmptyString)))))))
          = Return (rgbOf r g b)).
  rewrite E, Vr, Vg, Vb. reflexivity.
Qed.

(** The colour string of the native module is read back by [hexToRgb] as
    the very channels it was formatted from. *)
Theorem hexToRgb_formatColor (r g b : Z) :
  0 <= r <= 255 -> 0 <= g <= 255 -> 0 <= b <= 255 ->
  hexToRgb (Java.formatColor r g b) = Return (rgbOf r g b).
Proof. exact (formatColor_read_back r g b). Qed.

Lemma hexToRgb_formatColor_witness :
  hexToRgb (Java.formatColor 128 128 255) = Return (rgbOf 128 128 255).
Proof. apply hexToRgb_formatColor; lia. Defined.


(** ** The dominant colour *)















(** ** The JavaScript colour helpers *)

Lemma byteLowerOk_all : forallb byteLowerOk (Java.range 0 256) = true.
Proof. vm_compute. reflexivity. Qed.

Lemma byte_lower (k : Z) :
  0 <= k <= 255 ->
  exists h h' c1 c2,
    toString16 (Z2F k) = Some h /\
    Fallback.pad2 h = String c1 (String c2 EmptyString) /\
    isHexDigit c1 = true /\ isHexDigit c2 = true /\
    16 * hexDigit c1 + hexDigit c2 = k /\
    toString16 (Math_round (Z2F k)) = Some h' /\
    toUpperCase (Fallback.pad2 h') = Java.format02X k.
Proof.
  intros H. pose proof byteLowerOk_all as A. rewrite forallb_forall in A.
  specialize (A k ltac:(apply range_In; lia)). unfold byteLowerOk in A.
  destruct (toString16 (Z2F k)) as [h|]; [|discriminate].
  destruct (Fallback.pad2 h) as [|c1 [|c2 [|]]] eqn:P; try discriminate.
  destruct (toString16 (Math_round (Z2F k))) as [h'|];
    [|rewrite andb_false_r in A; discriminate].
  apply andb_prop in A. destruct A as [A A4]. apply andb_prop in A. destruct A as [A A3].
  apply andb_prop in A. destruct A as [A1 A2].
  apply Z.eqb_eq in A3. apply String.eqb_eq in A4.
  exists h, h', c1, c2. repeat split; auto.
Qed.

Lemma parseInt_pair (c1 c2 : ascii) :
  isHexDigit c1 = true -> isHexDigit c2 = true ->
  parseInt (String c1 (String c2 EmptyString)) 16 = Z2F (16 * hexDigit c1 + hexDigit c2).
Proof.
  intros H1 H2. rewrite parseInt_allHex.
  - unfold hexValue. cbn [hexValueFrom]. f_equal. lia.
  - simpl. now rewrite H1, H2.
  - discriminate.
Qed.

(** [rgbToHex] of the fallback extractor writes three bytes as a string that
    its own [hexToRgb] and the [hexToRgb] of the tone evaluator both read
    back as those bytes. *)
Theorem fallback_rgbToHex_read_back (r g b : Z) :
  0 <= r <= 255 -> 0 <= g <= 255 -> 0 <= b <= 255 ->
  exists s,
    Fallback.rgbToHex (Z2F r) (Z2F g) (Z2F b) = Some s /\
    Fallback.hexToRgb s = rgbOf r g b /\
    hexToRgb s = Return (rgbOf r g b).
Proof.
  intros Hr Hg Hb.
  destruct (byte_lower r Hr) as (hr & _ & r1 & r2 & Er & Pr & R1 & R2 & Vr & _).
  destruct (byte_lower g Hg) as (hg & _ & g1 & g2 & Eg & Pg & G1 & G2 & Vg & _).
  destruct (byte_lower b Hb) as (hb & _ & b1 & b2 & Eb & Pb & B1 & B2 & Vb & _).
  unfold Fallback.rgbToHex. rewrite Er, Eg, Eb, Pr, Pg, Pb.
  eexists. split; [reflexivity|].
  change (String "#" (String r1 (String r2 EmptyString)
            ++ String g1 (String g2 EmptyString) ++ String b1 (String b2 EmptyString)))
    with (String "#" (String r1 (String r2 (String g1 (String g2
            (String b1 (String b2 EmptyString))))))).
  split.
  - unfold Fallback.hexToRgb.
    change (Fallback.removeFirst "#" (String "#" (String r1 (String r2 (String g1 (String g2
            (String b1 (String b2 EmptyString))))))))
      with (String r1 (String r2 (String g1 (String g2 (String b1 (String b2 EmptyString)))))).
    change (Fallback.substring 0 2 (String r1 (String r2 (String g1 (String g2
              (String b1 (String b2 EmptyString)))))))
      with (String r1 (String r2 EmptyString)).
    change (Fallback.substring 2 4 (String r1 (String r2 (String g1 (String g2
              (String b1 (String b2 EmptyString)))))))
      with (String g1 (String g2 EmptyString)).
    change (Fallback.substring 4 6 (String r1 (String r2 (String g1 (String g2
              (String b1 (String b2 EmptyString)))))))
      with (String b1 (String b2 EmptyString)).
    rewrite !parseInt_pair by assumption. now rewrite Vr, Vg, Vb.
  - destruct (hexToRgb_pairs r1 r2 g1 g2 b1 b2 R1 R2 G1 G2 B1 B2) as [_ E].
    cbv zeta in E. now rewrite E, Vr, Vg, Vb.
Qed.

Lemma fallback_rgbToHex_read_back_witness :
  exists s,
    Fallback.rgbToHex (Z2F 255) (Z2F 0) (Z2F 10) = Some s /\
    Fallback.hexToRgb s = rgbOf 255 0 10 /\
    hexToRgb s = Return (rgbOf 255 0 10).
Proof. apply fallback_rgbToHex_read_back; lia. Defined.

(** On bytes, [rgbToHex] of [ColorCamera] writes the very string the native
    module formats. *)
Theorem colorCamera_rgbToHex_is_formatColor (r g b : Z) :
  0 <= r <= 255 -> 0 <= g <= 255 -> 0 <= b <= 255 ->
  ColorCamera.rgbToHex (Z2F r) (Z2F g) (Z2F b) = Some (Java.formatColor r g b).
Proof.
  intros Hr Hg Hb.
  destruct (byte_lower r Hr) as (_ & hr & _ & _ & _ & _ & _ & _ & _ & Er & Ur).
  destruct (byte_lower g Hg) as (_ & hg & _ & _ & _ & _ & _ & _ & _ & Eg & Ug).
  destruct (byte_lower b Hb) as (_ & hb & _ & _ & _ & _ & _ & _ & _ & Eb & Ub).
  unfold ColorCamera.rgbToHex, Java.formatColor. rewrite Er, Eg, Eb.
  rewrite <- Ur, <- Ug, <- Ub. f_equal.
  assert (K : forall s t, toUpperCase (s ++ t)%string = (toUpperCase s ++ toUpperCase t)%string).
  { induction s as [|c s IH]; intros t; [reflexivity|]. simpl. now rewrite IH. }
  cbn [toUpperCase]. rewrite !K. reflexivity.
Qed.

Lemma colorCamera_rgbToHex_is_formatColor_witness :
  ColorCamera.rgbToHex (Z2F 255) (Z2F 0) (Z2F 10) = Some "#FF000A"%string.
Proof. apply (colorCamera_rgbToHex_is_formatColor 255 0 10); lia. Defined.

Lemma length6 (s : string) :
  String.length s = 6%nat ->
  exists c1 c2 c3 c4 c5 c6,
    s = String c1 (String c2 (String c3 (String c4 (String c5 (String c6 EmptyString))))).
Proof.
  intros H.
  destruct s as [|c1 [|c2 [|c3 [|c4 [|c5 [|c6 [|c7 s]]]]]]]; try discriminate.
  now exists c1, c2, c3, c4, c5, c6.
Qed.

(** Whenever the regular expression of [ColorCamera]'s [hexToRgb] matches,
    the [hexToRgb] of the tone evaluator returns the same channels; on any
    other string [ColorCamera]'s parser answers black instead of failing. *)
Theorem colorCamera_hexToRgb_agrees (hex : string) :
  match ColorCamera.execHex hex with
  | Some _ => hexToRgb hex = Return (ColorCamera.hexToRgb hex)
  | None => ColorCamera.hexToRgb hex = rgbOf 0 0 0
  end.
Proof.
  unfold ColorCamera.hexToRgb.
  destruct (ColorCamera.execHex hex) as [[[g1 g2] g3]|] eqn:E; [|reflexivity].
  unfold ColorCamera.execHex in E.
  destruct (String.length (stripHash hex) =? 6)%nat eqn:L; [|discriminate].
  destruct (allHex (stripHash hex)) eqn:A; [|discriminate].
  apply Nat.eqb_eq in L. cbn [andb] in E.
  destruct (length6 _ L) as (c1 & c2 & c3 & c4 & c5 & c6 & Es).
  rewrite Es in E, A. cbn in E. injection E as <- <- <-.
  simpl in A. rewrite !andb_true_iff in A.
  destruct A as (H1 & H2 & H3 & H4 & H5 & H6 & _).
  rewrite !parseInt_pair by assumption.
  destruct (hexToRgb_pairs c1 c2 c3 c4 c5 c6 H1 H2 H3 H4 H5 H6) as [E1 E2].
  cbv zeta in E1, E2.
  assert (Hh : hex = stripHash hex \/ hex = String "#" (stripHash hex)).
  { unfold stripHash. destruct hex as [|c s]; [now left|].
    destruct (Ascii.ascii_dec c "#") as [->|N]; [now right|left].
    destruct c as [[] [] [] [] [] [] [] []]; try reflexivity; congruence. }
  destruct Hh as [Hh|Hh]; rewrite Hh, Es; [exact E1|exact E2].
Qed.

(** The 3-digit shorthand, which the tone evaluator expands, is black for
    [ColorCamera]'s [hexToRgb]. *)
Theorem colorCamera_hexToRgb_shorthand (c1 c2 c3 : ascii) :
  let s := String c1 (String c2 (String c3 EmptyString)) in
  ColorCamera.hexToRgb s = rgbOf 0 0 0 /\
  ColorCamera.hexToRgb (String "#" s) = rgbOf 0 0 0.
Proof.
  cbv zeta. unfold ColorCamera.hexToRgb, ColorCamera.execHex. split.
  - destruct (stripHash (String c1 (String c2 (String c3 EmptyString)))) as [|d1 [|d2 [|d3 [|d4 s]]]] eqn:E;
      try reflexivity.
    exfalso. unfold stripHash in E.
    destruct c1 as [[] [] [] [] [] [] [] []]; discriminate.
  - reflexivity.
Qed.

Lemma between_false (a b : Z) (h : number) :
  0 <= a <= 360 -> 0 <= b <= 360 ->
  ((0 <=? h) && (h <? 360))%float = false ->
  ((Z2F a <=? h) && (h <? Z2F b))%float = false.
Proof.
  intros Ha Hb H.
  destruct ((Z2F a <=? h) && (h <? Z2F b))%float eqn:E; [|reflexivity].
  apply andb_prop in E. destruct E as [E1 E2].
  apply leb_rank in E1. apply ltb_rank in E2.
  destruct E1 as (_ & Nh & R1). destruct E2 as (_ & _ & R2).
  assert (U : forall k, 0 <= k <= 360 -> Z.abs k < 2 ^ 53).
  { intros k Hk. change (2 ^ 53) with 9007199254740992. lia. }
  rewrite rank_Z2F in R1, R2 by auto.
  pose proof (pow2_pos 1074 ltac:(lia)) as P.
  assert (L1 : (0 <=? h)%float = true).
  { change 0%float with (Z2F 0). apply leb_rank.
    rewrite rank_Z2F, is_nan_Z2F by (apply U; lia). repeat split; auto. nia. }
  assert (L2 : (h <? 360)%float = true).
  { change 360%float with (Z2F 360). apply ltb_rank.
    rewrite rank_Z2F, is_nan_Z2F by (apply U; lia). repeat split; auto. nia. }
  rewrite L1, L2 in H. discriminate.
Qed.

(** [hslToRgb] has a branch for every hue from 0 up to, but not including,
    360: for any other hue (360 itself, a negative one, NaN) all three
    branches are skipped and the result is a grey, whatever the saturation. *)
Theorem hslToRgb_hue_out_of_range (h s l : number) :
  ((0 <=? h) && (h <? 360))%float = false ->
  let rgb := HslToRgb.hslToRgb h s l in
  Rgb.r rgb = Rgb.g rgb /\ Rgb.g rgb = Rgb.b rgb.
Proof.
  intros H. unfold HslToRgb.hslToRgb.
  change 60%float with (Z2F 60). change 120%float with (Z2F 120).
  change 180%float with (Z2F 180). change 240%float with (Z2F 240).
  change 300%float with (Z2F 300).
  change (0 <=? h)%float with (Z2F 0 <=? h)%float.
  change (h <? 360)%float with (h <? Z2F 360)%float.
  rewrite !between_false by (auto; lia).
  cbv zeta. cbn [Rgb.r Rgb.g Rgb.b]. auto.
Qed.

Lemma hslToRgb_hue_out_of_range_witness :
  let rgb := HslToRgb.hslToRgb 360 100 50 in
  Rgb.r rgb = Rgb.g rgb /\ Rgb.g rgb = Rgb.b rgb.
Proof. apply hslToRgb_hue_out_of_range. reflexivity. Defined.

Lemma Math_max_Z2F (a b : Z) :
  Z.abs a < 2 ^ 53 -> Z.abs b < 2 ^ 53 ->
  Math_max (Z2F a) (Z2F b) = Z2F (Z.max a b).
Proof.
  intros Ha Hb.
  destruct (Math_max_cases (Z2F a) (Z2F b) (is_nan_Z2F a Ha) (is_nan_Z2F b Hb)) as [C R].
  rewrite !rank_Z2F in R by assumption.
  pose proof (pow2_pos 1074 ltac:(lia)) as P.
  destruct C as [C|C]; rewrite C in *; rewrite rank_Z2F in R by assumption; f_equal; nia.
Qed.

Lemma Math_min_Z2F (a b : Z) :
  Z.abs a < 2 ^ 53 -> Z.abs b < 2 ^ 53 ->
  Math_min (Z2F a) (Z2F b) = Z2F (Z.min a b).
Proof.
  intros Ha Hb.
  destruct (Math_min_cases (Z2F a) (Z2F b) (is_nan_Z2F a Ha) (is_nan_Z2F b Hb)) as [C R].
  rewrite !rank_Z2F in R by assumption.
  pose proof (pow2_pos 1074 ltac:(lia)) as P.
  destruct C as [C|C]; rewrite C in *; rewrite rank_Z2F in R by assumption; f_equal; nia.
Qed.

(** The fallback extractor reads a brightness off the size of the image
    file, not off its pixels: every file of at most 50000 bytes is black and
    every file of at least 500000 bytes is white. *)
Theorem fallback_extract_saturates (stat : string -> completion number)
    (imagePath : string) (size : Z) :
  stat (Fallback.removeFirst "file://" imagePath) = Return (Z2F size) ->
  0 <= size < 2 ^ 53 ->
  (size <= 50000 ->
   Fallback.extractColorFromImage stat imagePath
   = {| Fallback.hex := Some "#000000"%string; Fallback.rgb := rgbOf 0 0 0 |}) /\
  (500000 <= size ->
   Fallback.extractColorFromImage stat imagePath
   = {| Fallback.hex := Some "#ffffff"%string; Fallback.rgb := rgbOf 255 255 255 |}).
Proof.
  intros Hs Hn. unfold Fallback.extractColorFromImage. rewrite Hs.
  assert (P53 : 2 ^ 53 = 9007199254740992) by reflexivity.
  assert (E : forall c, c = Z.min (Z.max size 50000) 500000 ->
              Fallback.brightnessOf (Z2F size) = Fallback.brightnessOf (Z2F c)).
  { intros c ->. unfold Fallback.brightnessOf.
    change 50000%float with (Z2F 50000). change 500000%float with (Z2F 500000).
    rewrite !Math_max_Z2F, !Math_min_Z2F by lia.
    replace (Z.max (Z.min (Z.max size 50000) 500000) 50000)
      with (Z.min (Z.max size 50000) 500000) by lia.
    replace (Z.min (Z.min (Z.max size 50000) 500000) 500000)
      with (Z.min (Z.max size 50000) 500000) by lia.
    reflexivity. }
  split; intros H.
  - rewrite (E 50000) by lia. reflexivity.
  - rewrite (E 500000) by lia. reflexivity.
Qed.

Lemma fallback_extract_saturates_witness :
  Fallback.extractColorFromImage (fun _ => Return (Z2F 1234)) "file:///tmp/a.jpg"
  = {| Fallback.hex := Some "#000000"%string; Fallback.rgb := rgbOf 0 0 0 |}.
Proof.
  refine (proj1 (fallback_extract_saturates (fun _ => Return (Z2F 1234))
                   "file:///tmp/a.jpg" 1234 _ _) _); [reflexivity| |]; lia.
Defined.


(** ** The sign of a difference *)

Lemma shr_1_m (mrs : shr_record) :
  0 <= shr_m mrs -> shr_m (shr_1 mrs) = shr_m mrs / 2 /\ 0 <= shr_m (shr_1 mrs).
Proof.
  destruct mrs as [m r s]. cbn [shr_m]. intros H.
  destruct m as [|[p|p|]|p]; try lia; cbn [shr_1 shr_m].
  - split; [reflexivity|lia].
  - split; [|lia]. change (Zpos p~1) with (2 * Zpos p + 1).
    apply Z.div_unique with 1; lia.
  - split; [|lia]. change (Zpos p~0) with (2 * Zpos p).
    apply Z.div_unique with 0; lia.
  - split; [reflexivity|lia].
Qed.

Lemma iter_shift {A} (f : A -> A) (n : nat) (x : A) :
  Nat.iter n f (f x) = f (Nat.iter n f x).
Proof. induction n as [|n IH]; [reflexivity|]. cbn [Nat.iter nat_rect]. now f_equal. Qed.

Lemma iter_pos_succ_nat {A} (f : A -> A) (p : positive) (x : A) :
  SpecFloat.iter_pos f p x = Nat.iter (Pos.to_nat p) f x.
Proof.
  revert x. induction p as [p IH|p IH|]; intros x; cbn [SpecFloat.iter_pos].
  - rewrite !IH, Pos2Nat.inj_xI.
    replace (S (2 * Pos.to_nat p))%nat with (S (Pos.to_nat p + Pos.to_nat p))%nat by lia.
    rewrite Nat.iter_succ, Nat.iter_add, !iter_shift. reflexivity.
  - rewrite !IH, Pos2Nat.inj_xO.
    replace (2 * Pos.to_nat p)%nat with (Pos.to_nat p + Pos.to_nat p)%nat by lia.
    now rewrite Nat.iter_add.
  - reflexivity.
Qed.

Lemma shr_iter_m (n : nat) (mrs : shr_record) :
  0 <= shr_m mrs ->
  shr_m (Nat.iter n shr_1 mrs) = shr_m mrs / 2 ^ Z.of_nat n /\
  0 <= shr_m (Nat.iter n shr_1 mrs).
Proof.
  intros H. induction n as [|n [IH1 IH2]].
  - simpl. rewrite Z.div_1_r. auto.
  - rewrite Nat.iter_succ. destruct (shr_1_m _ IH2) as [E P]. split; [|exact P].
    rewrite E, IH1, Z.div_div by lia. f_equal.
    rewrite Nat2Z.inj_succ, Z.pow_succ_r by lia. lia.
Qed.

Lemma shr_fexp_positive (m e : Z) (l : location) :
  1 <= m -> -1074 <= e ->
  1 <= shr_m (fst (shr_fexp prec emax m e l)) /\ -1074 <= snd (shr_fexp prec emax m e l).
Proof.
  intros Hm He. unfold shr_fexp, shr.
  destruct m as [|p|p]; try lia. cbn [Zdigits2].
  pose proof (digits2_bounds p) as B. set (d := Zpos (digits2_pos p)) in *.
  assert (F : fexp prec emax (d + e) - e = Z.max (d - 53) (-1074 - e)).
  { unfold fexp, FloatOps.prec, FloatOps.emax, SpecFloat.emin. lia. }
  rewrite F.
  assert (R : shr_m (shr_record_of_loc (Zpos p) l) = Zpos p)
    by (destruct l as [|[]]; reflexivity).
  destruct (Z.max (d - 53) (-1074 - e)) as [|q|q] eqn:En; cbn [fst snd].
  - rewrite R. lia.
  - rewrite iter_pos_succ_nat.
    destruct (shr_iter_m (Pos.to_nat q) (shr_record_of_loc (Zpos p) l)) as [E _];
      [rewrite R; lia|].
    rewrite E, R, positive_nat_Z. split; [|lia].
    assert (Hq : Zpos q = d - 53) by lia.
    apply Z.div_le_lower_bound; [apply pow2_pos; lia|].
    rewrite Z.mul_1_r, Hq.
    transitivity (2 ^ (d - 1)); [apply Z.pow_le_mono_r; lia|lia].
  - rewrite R. lia.
Qed.

Lemma round_nearest_even_ge (m : Z) (l : location) : m <= round_nearest_even m l.
Proof. destruct l as [|[]]; simpl; try lia. destruct (Z.even m); lia. Qed.

(** Rounding a positive mantissa at an exponent of at least -1074 never
    gives zero or NaN. *)
Lemma binary_round_aux_positive (s : bool) (m e : Z) (l : location) :
  1 <= m -> -1074 <= e ->
  (exists m' e', binary_round_aux prec emax s m e l = S754_finite s m' e') \/
  binary_round_aux prec emax s m e l = S754_infinity s.
Proof.
  intros Hm He. unfold binary_round_aux.
  pose proof (shr_fexp_positive m e l Hm He) as [P1 P2].
  destruct (shr_fexp prec emax m e l) as [mrs' e'] eqn:E1. cbn [fst snd] in P1, P2.
  pose proof (round_nearest_even_ge (shr_m mrs') (loc_of_shr_record mrs')) as G.
  pose proof (shr_fexp_positive (round_nearest_even (shr_m mrs') (loc_of_shr_record mrs'))
                e' loc_Exact ltac:(lia) P2) as [Q1 Q2].
  destruct (shr_fexp prec emax (round_nearest_even (shr_m mrs') (loc_of_shr_record mrs'))
              e' loc_Exact) as [mrs'' e''] eqn:E2.
  cbn [fst snd] in Q1, Q2.
  destruct (shr_m mrs'') as [|q|q]; try lia.
  destruct (e'' <=? emax - prec); [left; eauto|now right].
Qed.

Lemma shl_align_spec (m : positive) (e e' : Z) :
  e' <= e ->
  Zpos (fst (shl_align m e e')) = Zpos m * 2 ^ (e - e') /\ snd (shl_align m e e') = e'.
Proof.
  intros H. unfold shl_align.
  destruct (e' - e) as [|q|q] eqn:E; try lia.
  - cbn [fst snd]. replace (e - e') with 0 by lia. simpl. lia.
  - cbn [fst snd]. destruct (iter_xO_spec m q) as [I _]. rewrite I.
    split; [|reflexivity]. f_equal. f_equal. lia.
Qed.

Lemma binary_round_positive (s : bool) (m : positive) (e : Z) :
  -1074 <= e ->
  (exists m' e', binary_round prec emax s m e = S754_finite s m' e') \/
  binary_round prec emax s m e = S754_infinity s.
Proof.
  intros He. unfold binary_round.
  set (t := fexp prec emax (Zpos (digits2_pos m) + e)).
  assert (Ht : -1074 <= t)
    by (unfold t, fexp, FloatOps.prec, FloatOps.emax, SpecFloat.emin; lia).
  destruct (shl_align m e t) as [mz ez] eqn:E.
  apply binary_round_aux_positive; [lia|].
  unfold shl_align in E. destruct (t - e) as [|q|q] eqn:Eq; inversion E; subst; lia.
Qed.


Lemma SFpositive_ltb (z : number) :
  (0 <? z)%float = SFpositive (Prim2SF z).
Proof.
  rewrite FloatAxioms.ltb_spec. unfold SFltb.
  change (Prim2SF 0) with (S754_zero false).
  destruct (Prim2SF z) as [s|s| |s m e]; try reflexivity; now destruct s.
Qed.

Lemma shl_align_rank (s : bool) (m : positive) (e ez : Z) :
  -1074 <= ez -> ez <= e ->
  cond_Zopp s (Zpos m * 2 ^ (e + 1074)) =
  cond_Zopp s (Zpos (fst (shl_align m e ez))) * 2 ^ (ez + 1074).
Proof.
  intros H1 H2. destruct (shl_align_spec m e ez H2) as [E _]. rewrite E.
  replace (e + 1074) with ((e - ez) + (ez + 1074)) by lia.
  rewrite (Z.pow_add_r 2 (e - ez) (ez + 1074)) by lia.
  destruct s; cbn [cond_Zopp]; lia.
Qed.

(** The sign of [x - y]: it is positive exactly when [y] is below [x]. *)
Lemma SFsub_positive (x y : spec_float) :
  valid_binary x = true -> valid_binary y = true ->
  SFpositive (SFsub prec emax x y) = true <->
  x <> S754_nan /\ y <> S754_nan /\ SFrank y < SFrank x.
Proof.
  intros Vx Vy.
  pose proof (pow2_pos 2100 ltac:(lia)) as P.
  destruct x as [sx|sx| |sx mx ex], y as [sy|sy| |sy my ey];
    try (pose proof (finite_rank_bound _ _ _ Vx) as Bx);
    try (pose proof (finite_rank_bound _ _ _ Vy) as By);
    try (split; [discriminate | intros (? & ? & ?); congruence]).
  all: try (destruct sx, sy; cbn [SFsub SFpositive SFrank cond_Zopp negb];
            (split; [try discriminate; intros _; repeat split; try discriminate; lia
                    | intros (_ & _ & ?); try reflexivity; lia])).
  all: try (destruct sx; cbn [SFsub SFpositive SFrank cond_Zopp negb] in *;
            (split; [try discriminate; intros _; repeat split; try discriminate; lia
                    | intros (_ & _ & ?); try reflexivity; lia])).
  all: try (destruct sy; cbn [SFsub SFpositive SFrank cond_Zopp negb] in *;
            (split; [try discriminate; intros _; repeat split; try discriminate; lia
                    | intros (_ & _ & ?); try reflexivity; lia])).
  (* finite, finite *)
  pose proof (valid_finite _ _ _ Vx) as (Ex & _).
  pose proof (valid_finite _ _ _ Vy) as (Ey & _).
  cbn [SFsub SFrank]. set (ez := Z.min ex ey).
  rewrite (shl_align_rank sx mx ex ez) by lia.
  rewrite (shl_align_rank sy my ey ez) by lia.
  set (a := cond_Zopp sx (Zpos (fst (shl_align mx ex ez)))).
  set (b := cond_Zopp sy (Zpos (fst (shl_align my ey ez)))).
  pose proof (pow2_pos (ez + 1074) ltac:(lia)) as Q.
  set (w := 2 ^ (ez + 1074)) in *.
  assert (L : b * w < a * w <-> 0 < a - b) by nia.
  unfold binary_normalize.
  destruct (a - b) as [|d|d] eqn:D.
  - cbn [SFpositive]. split; [discriminate|]. intros (_ & _ & H). apply L in H. lia.
  - destruct (binary_round_positive false d ez ltac:(lia)) as [(m' & e' & R)|R];
      rewrite R; cbn [SFpositive];
      (split; [intros _; repeat split; try discriminate; apply L; lia | reflexivity]).
  - destruct (binary_round_positive true d ez ltac:(lia)) as [(m' & e' & R)|R];
      rewrite R; cbn [SFpositive];
      (split; [discriminate | intros (_ & _ & H); apply L in H; lia]).
Qed.

(** [0 < x - y] is [y < x], for all numbers, NaN and the infinities included. *)
Lemma sub_pos (x y : number) : (0 <? x - y)%float = (y <? x)%float.
Proof.
  rewrite SFpositive_ltb, FloatAxioms.sub_spec. unfold SF64sub.
  pose proof (SFsub_positive (Prim2SF x) (Prim2SF y) (Prim2SF_valid x) (Prim2SF_valid y)) as S.
  pose proof (ltb_rank y x) as T. rewrite !is_nan_false in T. fold (rank x) (rank y) in S.
  destruct (SFpositive (SFsub prec emax (Prim2SF x) (Prim2SF y))), (y <? x)%float;
    try reflexivity.
  - symmetry. apply T. destruct S as [S _]. destruct (S eq_refl) as (? & ? & ?). auto.
  - apply S. destruct T as [T _]. destruct (T eq_refl) as (? & ? & ?). auto.
Qed.

(** ** Sorting the buckets *)

Lemma byMinScoreDesc_pos (a b : MatchBucket.t) :
  (0 <? byMinScoreDesc a b)%float
  = (MatchBucket.minScore a <? MatchBucket.minScore b)%float.
Proof. apply sub_pos. Qed.

Lemma sortInsert_perm {A} (cmp : A -> A -> number) (x : A) (l : list A) :
  Permutation (x :: l) (sortInsert cmp x l).
Proof.
  induction l as [|y l IH]; cbn [sortInsert]; [reflexivity|].
  destruct (0 <? cmp x y)%float; [|reflexivity].
  etransitivity; [apply perm_swap|]. now apply perm_skip.
Qed.

Lemma sorted_cons {A} (cmp : A -> A -> number) (x : A) (l : list A) :
  sorted cmp (x :: l) = sortInsert cmp x (sorted cmp l).
Proof. reflexivity. Qed.

Lemma sorted_perm {A} (cmp : A -> A -> number) (l : list A) :
  Permutation l (sorted cmp l).
Proof.
  induction l as [|x l IH]; [reflexivity|]. rewrite sorted_cons.
  etransitivity; [apply perm_skip, IH|]. apply sortInsert_perm.
Qed.

Lemma ltb_asym (x y : number) : (x <? y)%float = true -> (y <? x)%float = false.
Proof.
  intros H. apply ltb_rank in H. destruct H as (Nx & Ny & H).
  apply ltb_false_rank; auto. lia.
Qed.

Lemma leb_notBelow (a b : MatchBucket.t) :
  (MatchBucket.minScore b <=? MatchBucket.minScore a)%float = true -> notBelow a b.
Proof.
  intros H. apply leb_rank in H. destruct H as (Nb & Na & H).
  apply ltb_false_rank; auto.
Qed.




(** An array which the comparator already accepts is left as it is. *)
Lemma settled_fix (l : list MatchBucket.t) :
  Sorted notBelow l -> sorted byMinScoreDesc l = l.
Proof.
  induction 1 as [|x l S IH H]; [reflexivity|]. rewrite sorted_cons, IH.
  destruct H as [|y l H]; [reflexivity|]. cbn [sortInsert].
  rewrite byMinScoreDesc_pos. unfold notBelow in H. now rewrite H.
Qed.


Lemma descending_settled (l : list MatchBucket.t) :
  descending l -> Sorted notBelow l.
Proof.
  induction 1 as [|x l S IH H]; constructor; [exact IH|].
  destruct H as [|y l Hy H]; constructor. now apply leb_notBelow.
Qed.

Lemma leb_trans (x y z : number) :
  (x <=? y)%float = true -> (y <=? z)%float = true -> (x <=? z)%float = true.
Proof.
  intros H1 H2. apply leb_rank in H1, H2. apply leb_rank.
  destruct H1 as (? & ? & ?), H2 as (? & ? & ?). repeat split; auto. lia.
Qed.

Lemma sortInsert_descending (x : MatchBucket.t) (l : list MatchBucket.t) :
  numericBuckets (x :: l) -> descending l ->
  descending (sortInsert byMinScoreDesc x l).
Proof.
  intros N D. apply Forall_cons_iff in N. destruct N as [Nx N].
  induction D as [|y l S IH H]; cbn [sortInsert]; [repeat constructor|].
  apply Forall_cons_iff in N. destruct N as [Ny N].
  rewrite byMinScoreDesc_pos.
  destruct (MatchBucket.minScore x <? MatchBucket.minScore y)%float eqn:E.
  - constructor; [now apply IH|].
    apply (Permutation_Forall (sortInsert_perm byMinScoreDesc x l)).
    constructor; [|exact H].
    apply ltb_rank in E. apply leb_rank. destruct E as (? & ? & ?).
    repeat split; auto. lia.
  - assert (Hyx : (MatchBucket.minScore y <=? MatchBucket.minScore x)%float = true).
    { apply ltb_false_rank in E; auto. apply leb_rank. auto. }
    constructor; [now constructor|]. constructor; [exact Hyx|].
    eapply Forall_impl; [exact H|]. cbv beta. intros b Hb.
    now apply leb_trans with (MatchBucket.minScore y).
Qed.

Lemma sorted_descending (l : list MatchBucket.t) :
  numericBuckets l -> descending (sorted byMinScoreDesc l).
Proof.
  induction 1 as [|x l Nx N IH]; [constructor|]. rewrite sorted_cons.
  apply sortInsert_descending; [|exact IH].
  constructor; [exact Nx|].
  apply (Permutation_Forall (sorted_perm byMinScoreDesc l)). exact N.
Qed.

(** The first bucket of a descending array that a score reaches is one of
    greatest [minScore] among those it reaches. *)
Lemma find_descending (score : number) (l : list MatchBucket.t) :
  descending l ->
  match List.find (fun b => (MatchBucket.minScore b <=? score)%float) l with
  | Some b =>
      In b l /\ (MatchBucket.minScore b <=? score)%float = true /\
      forall b', In b' l -> (MatchBucket.minScore b' <=? score)%float = true ->
                 (MatchBucket.minScore b' <=? MatchBucket.minScore b)%float = true
  | None => Forall (fun b => (MatchBucket.minScore b <=? score)%float = false) l
  end.
Proof.
  induction 1 as [|x l S IH H]; cbn [List.find]; [constructor|].
  destruct (MatchBucket.minScore x <=? score)%float eqn:E.
  - split; [now left|]. split; [exact E|]. intros b' [<-|Hb'] Hs.
    + apply leb_rank in E. apply leb_rank. destruct E as (? & ? & ?). repeat split; auto. lia.
    + rewrite List.Forall_forall in H. now apply H.
  - destruct (List.find _ l) as [b|].
    + destruct IH as (I & P & G). split; [now right|]. split; [exact P|].
      intros b' [<-|Hb'] Hs; [congruence|now apply G].
    + now constructor.
Qed.

(** ** [evaluateTone] and the caller's buckets *)

(** A successful call of [evaluateTone] sorts the caller's own array of
    buckets: afterwards the store holds, at the reference of
    [profile.matchBuckets], a permutation of the former array in descending
    order of [minScore], and nothing else of the store has changed.  The
    array is left as it was only if it was in descending order already. *)
Theorem evaluateTone_sorts_in_place `{M : MathImpl}
    (hex : string) (profile : ToneProfile.t) (st : store)
    (rgb : Rgb.t) (l : list MatchBucket.t) :
  hexToRgb hex = Return rgb ->
  st !! ToneProfile.matchBuckets profile = Some l ->
  numericBuckets l ->
  exists res l',
    evaluateTone hex profile st
      = (Return res, <[ToneProfile.matchBuckets profile := l']> st) /\
    Permutation l l' /\ descending l' /\ (l' = l <-> descending l).
Proof.
  intros Hh Hl N.
  exists (resultOf hex profile (scoreColour rgb profile) (sorted byMinScoreDesc l)).
  exists (sorted byMinScoreDesc l).
  split; [now apply evaluateTone_returns|].
  split; [apply sorted_perm|].
  split; [now apply sorted_descending|].
  split.
  - intros <-. now apply sorted_descending.
  - intros D. now apply settled_fix, descending_settled.
Qed.

Lemma evaluateTone_sorts_in_place_witness :
  exists res l',
    @evaluateTone sampleMath "#000000" sampleProfile sampleStore
      = (Return res, <[ToneProfile.matchBuckets sampleProfile := l']> sampleStore) /\
    Permutation [bucket 0 "Poor"; bucket 90 "Perfect"; bucket 70 "Good"] l' /\
    descending l' /\
    (l' = [bucket 0 "Poor"; bucket 90 "Perfect"; bucket 70 "Good"] <->
     descending [bucket 0 "Poor"; bucket 90 "Perfect"; bucket 70 "Good"]).
Proof.
  apply (@evaluateTone_sorts_in_place sampleMath "#000000" sampleProfile sampleStore
           (rgbOf 0 0 0)).
  - vm_compute. reflexivity.
  - reflexivity.
  - repeat constructor.
Defined.



(** The match level is the label of a bucket of greatest [minScore] among
    those whose [minScore] the score reaches, and ["not a match"] when the
    score reaches none.  The score compared is the clamped one, before it is
    rounded for the result. *)
Theorem evaluateTone_matchLevel `{M : MathImpl}
    (hex : string) (profile : ToneProfile.t) (st : store)
    (rgb : Rgb.t) (l : list MatchBucket.t) :
  hexToRgb hex = Return rgb ->
  st !! ToneProfile.matchBuckets profile = Some l ->
  numericBuckets l ->
  let score := clamp 0 (100 - sc_penalty (scoreColour rgb profile)) 100 in
  exists res st',
    evaluateTone hex profile st = (Return res, st') /\
    ((ToneResult.matchLevel res = "not a match"%string /\
      Forall (fun b => (MatchBucket.minScore b <=? score)%float = false) l) \/
     (exists b,
        In b l /\ ToneResult.matchLevel res = MatchBucket.label b /\
        (MatchBucket.minScore b <=? score)%float = true /\
        forall b', In b' l -> (MatchBucket.minScore b' <=? score)%float = true ->
                   (MatchBucket.minScore b' <=? MatchBucket.minScore b)%float = true)).
Proof.
  intros Hh Hl N score. do 2 eexists.
  split; [eapply evaluateTone_returns; eassumption|].
  cbn [resultOf ToneResult.matchLevel]. fold score.
  pose proof (find_descending score _ (sorted_descending l N)) as F.
  pose proof (sorted_perm byMinScoreDesc l) as P.
  destruct (List.find _ (sorted byMinScoreDesc l)) as [b|].
  - right. destruct F as (I & S & G). exists b.
    split; [now apply (Permutation_in _ (Permutation_sym P))|].
    split; [reflexivity|]. split; [exact S|].
    intros b' Hb'. apply G. now apply (Permutation_in _ P).
  - left. split; [reflexivity|].
    now apply (Permutation_Forall (Permutation_sym P)).
Qed.

Lemma evaluateTone_matchLevel_witness :
  let score :=
    clamp 0 (100 - sc_penalty (@scoreColour sampleMath (rgbOf 0 0 0) sampleProfile)) 100 in
  exists res st',
    @evaluateTone sampleMath "#000000" sampleProfile sampleStore = (Return res, st') /\
    ((ToneResult.matchLevel res = "not a match"%string /\
      Forall (fun b => (MatchBucket.minScore b <=? score)%float = false)
        [bucket 0 "Poor"; bucket 90 "Perfect"; bucket 70 "Good"]) \/
     (exists b,
        In b [bucket 0 "Poor"; bucket 90 "Perfect"; bucket 70 "Good"] /\
        ToneResult.matchLevel res = MatchBucket.label b /\
        (MatchBucket.minScore b <=? score)%float = true /\
        forall b', In b' [bucket 0 "Poor"; bucket 90 "Perfect"; bucket 70 "Good"] ->
                   (MatchBucket.minScore b' <=? score)%float = true ->
                   (MatchBucket.minScore b' <=? MatchBucket.minScore b)%float = true)).
Proof.
  apply (@evaluateTone_matchLevel sampleMath "#000000" sampleProfile sampleStore
           (rgbOf 0 0 0)).
  - vm_compute. reflexivity.
  - reflexivity.
  - repeat constructor.
Defined.

(** A call that throws leaves the store as it was: the string is checked
    before the buckets are touched. *)
Theorem evaluateTone_failure `{M : MathImpl}
    (hex : string) (profile : ToneProfile.t) (st st' : store) (e : string) :
  evaluateTone hex profile st = (Throw e, st') ->
  st' = st /\
  (hexToRgb hex = Throw "Bad hex" \/
   st !! ToneProfile.matchBuckets profile = None).
Proof.
  intros H. destruct (hexToRgb hex) as [rgb|e'] eqn:Hh.
  - destruct (st !! ToneProfile.matchBuckets profile) as [l|] eqn:Hl.
    + rewrite (evaluateTone_returns _ _ _ _ _ Hh Hl) in H. discriminate.
    + unfold evaluateTone, bind, lift, Array_sort in H. rewrite Hh, Hl in H.
      inversion H. auto.
  - rewrite (evaluateTone_throws _ _ _ _ Hh) in H. inversion H; subst. split; [reflexivity|].
    left. destruct (hexToRgb_length hex) as [Hbad Hok]. cbv zeta in *.
    destruct (Nat.eq_dec (String.length (stripHash hex)) 3%nat) as [E3|E3];
      [destruct Hok as [? Hok]; [auto|congruence]|].
    destruct (Nat.eq_dec (String.length (stripHash hex)) 6%nat) as [E6|E6];
      [destruct Hok as [? Hok]; [auto|congruence]|].
    rewrite (Hbad (conj E3 E6)) in Hh. symmetry. exact Hh.
Qed.

Lemma evaluateTone_failure_witness :
  sampleStore = sampleStore /\
  (hexToRgb "#12345" = Throw "Bad hex" \/
   sampleStore !! ToneProfile.matchBuckets sampleProfile = None).
Proof.
  apply (@evaluateTone_failure sampleMath "#12345" sampleProfile sampleStore sampleStore
           "Bad hex").
  reflexivity.
Defined.

(** ** [clamp] *)

Lemma eqb_rank (x y : number) :
  (x =? y)%float = true <->
  is_nan x = false /\ is_nan y = false /\ rank x = rank y.
Proof.
  rewrite FloatAxioms.eqb_spec. unfold SFeqb, rank. rewrite !is_nan_false.
  destruct (Prim2SF x) as [sx|sx| |sx mx ex] eqn:Ex;
    try (split; [discriminate | intros (? & ? & ?); congruence]);
    destruct (Prim2SF y) as [sy|sy| |sy my ey] eqn:Ey;
    try (split; [try discriminate; destruct sx; discriminate | intros (? & ? & ?); congruence]).
  all: rewrite <- Ex, <- Ey, SFcompare_rank
    by (rewrite ?Ex, ?Ey; try congruence; rewrite <- ?Ex, <- ?Ey; apply Prim2SF_valid).
  all: destruct (Z.compare_spec (SFrank (Prim2SF x)) (SFrank (Prim2SF y)));
    rewrite ?Ex, ?Ey in *; (split; [intros; repeat split; try congruence; try lia |
                                    intros (? & ? & ?); try reflexivity; lia]).
Qed.

Lemma clamp_nan (lo x hi : number) :
  is_nan (clamp lo x hi) = is_nan lo || is_nan x || is_nan hi.
Proof.
  unfold clamp. rewrite Math_max_nan, Math_min_nan.
  now destruct (is_nan lo), (is_nan x), (is_nan hi).
Qed.

(** [clamp lo x hi] lies between [lo] and [hi] when [lo <= hi] and [x] is a
    number, and it is [x] when [x] lies between them already. *)
Theorem clamp_between (lo x hi : number) :
  is_nan x = false -> (lo <=? hi)%float = true ->
  (lo <=? clamp lo x hi)%float = true /\
  (clamp lo x hi <=? hi)%float = true /\
  ((lo <=? x)%float = true -> (x <=? hi)%float = true ->
   (clamp lo x hi =? x)%float = true).
Proof.
  intros Nx H. apply leb_rank in H. destruct H as (Nlo & Nhi & H).
  assert (Nc : is_nan (clamp lo x hi) = false) by (now rewrite clamp_nan, Nlo, Nx, Nhi).
  assert (Nm : is_nan (Math_min x hi) = false) by (now rewrite Math_min_nan, Nx, Nhi).
  destruct (Math_min_cases x hi Nx Nhi) as [_ Rm].
  destruct (Math_max_cases lo (Math_min x hi) Nlo Nm) as [_ Rc].
  fold (clamp lo x hi) in Rc.
  split; [apply leb_rank; repeat split; auto; lia|].
  split; [apply leb_rank; repeat split; auto; lia|].
  intros H1 H2. apply leb_rank in H1, H2.
  apply eqb_rank. repeat split; auto. lia.
Qed.

Lemma clamp_between_witness :
  (0 <=? clamp 0 250 100)%float = true /\
  (clamp 0 250 100 <=? 100)%float = true /\
  ((0 <=? 250)%float = true -> (250 <=? 100)%float = true ->
   (clamp 0 250 100 =? 250)%float = true).
Proof. apply (clamp_between 0 250 100); reflexivity. Defined.

(** ** Signs of differences, quotients and products *)

Lemma SFnegative_ltb (z : number) :
  (z <? 0)%float = SFnegative (Prim2SF z).
Proof.
  rewrite FloatAxioms.ltb_spec. unfold SFltb.
  change (Prim2SF 0) with (S754_zero false).
  destruct (Prim2SF z) as [s|s| |s m e]; try reflexivity; now destruct s.
Qed.

Lemma SFsub_negative (x y : spec_float) :
  valid_binary x = true -> valid_binary y = true ->
  SFnegative (SFsub prec emax x y) = true <->
  x <> S754_nan /\ y <> S754_nan /\ SFrank x < SFrank y.
Proof.
  intros Vx Vy.
  pose proof (pow2_pos 2100 ltac:(lia)) as P.
  destruct x as [sx|sx| |sx mx ex], y as [sy|sy| |sy my ey];
    try (pose proof (finite_rank_bound _ _ _ Vx) as Bx);
    try (pose proof (finite_rank_bound _ _ _ Vy) as By);
    try (split; [discriminate | intros (? & ? & ?); congruence]).
  all: try (destruct sx, sy; cbn [SFsub SFnegative SFrank cond_Zopp negb];
            (split; [try discriminate; intros _; repeat split; try discriminate; lia
                    | intros (_ & _ & ?); try reflexivity; lia])).
  all: try (destruct sx; cbn [SFsub SFnegative SFrank cond_Zopp negb] in *;
            (split; [try discriminate; intros _; repeat split; try discriminate; lia
                    | intros (_ & _ & ?); try reflexivity; lia])).
  all: try (destruct sy; cbn [SFsub SFnegative SFrank cond_Zopp negb] in *;
            (split; [try discriminate; intros _; repeat split; try discriminate; lia
                    | intros (_ & _ & ?); try reflexivity; lia])).
  pose proof (valid_finite _ _ _ Vx) as (Ex & _).
  pose proof (valid_finite _ _ _ Vy) as (Ey & _).
  cbn [SFsub SFrank]. set (ez := Z.min ex ey).
  rewrite (shl_align_rank sx mx ex ez) by lia.
  rewrite (shl_align_rank sy my ey ez) by lia.
  set (a := cond_Zopp sx (Zpos (fst (shl_align mx ex ez)))).
  set (b := cond_Zopp sy (Zpos (fst (shl_align my ey ez)))).
  pose proof (pow2_pos (ez + 1074) ltac:(lia)) as Q.
  set (w := 2 ^ (ez + 1074)) in *.
  assert (L : a * w < b * w <-> a - b < 0) by nia.
  unfold binary_normalize.
  destruct (a - b) as [|d|d] eqn:D.
  - cbn [SFnegative]. split; [discriminate|]. intros (_ & _ & H). apply L in H. lia.
  - destruct (binary_round_positive false d ez ltac:(lia)) as [(m' & e' & R)|R];
      rewrite R; cbn [SFnegative];
      (split; [discriminate | intros (_ & _ & H); apply L in H; lia]).
  - destruct (binary_round_positive true d ez ltac:(lia)) as [(m' & e' & R)|R];
      rewrite R; cbn [SFnegative];
      (split; [intros _; repeat split; try discriminate; apply L; lia | reflexivity]).
Qed.

(** [x - y < 0] is [x < y]. *)
Lemma sub_neg (x y : number) : (x - y <? 0)%float = (x <? y)%float.
Proof.
  rewrite SFnegative_ltb, FloatAxioms.sub_spec. unfold SF64sub.
  pose proof (SFsub_negative (Prim2SF x) (Prim2SF y) (Prim2SF_valid x) (Prim2SF_valid y)) as S.
  pose proof (ltb_rank x y) as T. rewrite !is_nan_false in T. fold (rank x) (rank y) in S.
  destruct (SFnegative (SFsub prec emax (Prim2SF x) (Prim2SF y))), (x <? y)%float;
    try reflexivity.
  - symmetry. apply T. destruct S as [S _]. destruct (S eq_refl) as (? & ? & ?). auto.
  - apply S. destruct T as [T _]. destruct (T eq_refl) as (? & ? & ?). auto.
Qed.

Lemma binary_round_aux_sign (m e : Z) (l : location) :
  SFnegative (binary_round_aux prec emax false m e l) = false.
Proof.
  unfold binary_round_aux.
  destruct (shr_fexp prec emax m e l) as [mrs' e'].
  destruct (shr_fexp prec emax _ e' loc_Exact) as [mrs'' e''].
  destruct (shr_m mrs''); try reflexivity.
  now destruct (e'' <=? emax - prec).
Qed.

Lemma SFmul_sign (x y : spec_float) :
  SFnegative x = false -> SFnegative y = false ->
  SFnegative (SFmul prec emax x y) = false.
Proof.
  destruct x as [sx|[]| |[] mx ex], y as [sy|[]| |[] my ey];
    try discriminate; try reflexivity; intros _ _.
  cbn [SFmul xorb]. apply binary_round_aux_sign.
Qed.

Lemma SFdiv_sign (x y : spec_float) :
  SFnegative x = false -> SFpositive y = true ->
  SFnegative (SFdiv prec emax x y) = false.
Proof.
  destruct x as [sx|[]| |[] mx ex], y as [sy|[]| |[] my ey];
    try discriminate; try reflexivity; intros _ _.
  cbn [SFdiv xorb].
  destruct (SFdiv_core_binary prec emax (Zpos mx) ex (Zpos my) ey) as [[mz ez] lz].
  apply binary_round_aux_sign.
Qed.

Lemma mul_sign (x y : number) :
  (x <? 0)%float = false -> (y <? 0)%float = false -> (x * y <? 0)%float = false.
Proof.
  rewrite !SFnegative_ltb, FloatAxioms.mul_spec. apply SFmul_sign.
Qed.

Lemma div_sign (x y : number) :
  (x <? 0)%float = false -> (0 <? y)%float = true -> (x / y <? 0)%float = false.
Proof.
  rewrite !SFnegative_ltb, SFpositive_ltb, FloatAxioms.div_spec. apply SFdiv_sign.
Qed.

(** A truthy number that is not negative is positive. *)
Lemma truthy_positive (x : number) :
  falsy x = false -> (x <? 0)%float = false -> (0 <? x)%float = true.
Proof.
  unfold falsy. intros F. apply orb_false_elim in F. destruct F as [N Z].
  rewrite SFnegative_ltb, SFpositive_ltb.
  unfold is_zero in Z. rewrite FloatAxioms.eqb_spec in Z.
  apply is_nan_false in N. change (Prim2SF 0) with (S754_zero false) in Z.
  destruct (Prim2SF x) as [s|[]| |[] m e]; try discriminate; try reflexivity; congruence.
Qed.

Lemma js_or_positive (x y : number) :
  (x <? 0)%float = false -> (0 <? y)%float = true -> (0 <? js_or x y)%float = true.
Proof.
  intros Hx Hy. unfold js_or. destruct (falsy x) eqn:F; [exact Hy|].
  now apply truthy_positive.
Qed.

(** ** [rangePenalty] *)

(** For a rule with [min <= max] and a weight that is not negative, the
    penalty is never negative and never exceeds the weight, whatever the
    value is. *)
Theorem rangePenalty_range (value : number) (rule : RangeRule.t) :
  (RangeRule.min rule <=? RangeRule.max rule)%float = true ->
  (RangeRule.weight rule <? 0)%float = false ->
  (rangePenalty value rule <? 0)%float = false /\
  (RangeRule.weight rule <? rangePenalty value rule)%float = false.
Proof.
  intros Hmm Hw. unfold rangePenalty. cbv zeta.
  set (min := RangeRule.min rule) in *. set (max := RangeRule.max rule) in *.
  set (w := RangeRule.weight rule) in *.
  destruct ((min <=? value)%float && (value <=? max)%float) eqn:Inside.
  - split; [reflexivity|exact Hw].
  - set (dist := if (value <? min)%float then (min - value)%float else (value - max)%float).
    set (half := js_or ((max - min) / 2)%float 1%float).
    assert (Hd : (dist <? 0)%float = false).
    { unfold dist. destruct (value <? min)%float eqn:E.
      - rewrite sub_neg. now apply ltb_asym.
      - rewrite sub_neg. destruct (is_nan value) eqn:Nv; [now apply ltb_nan_l|].
        apply leb_rank in Hmm. destruct Hmm as (Nmin & Nmax & Hmm).
        apply ltb_false_rank in E; auto.
        assert (L : (min <=? value)%float = true) by (apply leb_rank; auto).
        rewrite L in Inside. cbn [andb] in Inside.
        apply leb_false_rank in Inside; auto.
        apply ltb_false_rank; auto. lia. }
    assert (Hh : (0 <? half)%float = true).
    { unfold half. apply js_or_positive; [|reflexivity].
      apply div_sign; [|reflexivity]. rewrite sub_neg.
      apply leb_rank in Hmm. destruct Hmm as (Nmin & Nmax & Hmm).
      apply ltb_false_rank; auto. }
    assert (Hp : (dist / half * w <? 0)%float = false)
      by (apply mul_sign; [now apply div_sign|exact Hw]).
    set (p := (dist / half * w)%float) in *.
    destruct (is_nan p) eqn:Np.
    { assert (N : is_nan (Math_min p w) = true) by (now rewrite Math_min_nan, Np).
      split; [now apply ltb_nan_l|now apply ltb_nan_r]. }
    destruct (is_nan w) eqn:Nw.
    { assert (N : is_nan (Math_min p w) = true)
        by (rewrite Math_min_nan, Np, Nw; reflexivity).
      split; [now apply ltb_nan_l|now apply ltb_nan_r]. }
    destruct (Math_min_cases p w Np Nw) as [[E|E] R].
    + rewrite E. split; [exact Hp|]. apply ltb_false_rank; auto.
      rewrite E in R. lia.
    + rewrite E. split; [exact Hw|]. apply ltb_false_rank; auto. lia.
Qed.

Lemma rangePenalty_range_witness :
  (rangePenalty 35 (ToneProfile.lightness sampleProfile) <? 0)%float = false /\
  (RangeRule.weight (ToneProfile.lightness sampleProfile)
     <? rangePenalty 35 (ToneProfile.lightness sampleProfile))%float = false.
Proof.
  apply (rangePenalty_range 35 (ToneProfile.lightness sampleProfile)); reflexivity.
Defined.

(** ** The notes *)

(** When each note is pushed. *)
Lemma notes_In `{M : MathImpl} (rgb : Rgb.t) (profile : ToneProfile.t) (n : string) :
  let lab := rgbToLab (Rgb.r rgb) (Rgb.g rgb) (Rgb.b rgb) in
  let L := Lab.L lab in
  let C := Math_hypot (Lab.a lab) (Lab.b lab) in
  let d := hueSectorDistance (labHue lab)
             (HueSectorsRule.sectors (ToneProfile.hueSectors profile)) in
  In n (sc_notes (scoreColour rgb profile)) <->
  (n = "too dark for this tone"%string /\
   (L <? RangeRule.min (ToneProfile.lightness profile))%float = true) \/
  (n = "too light/washed"%string /\
   (RangeRule.max (ToneProfile.lightness profile) <? L)%float = true) \/
  (n = "too gray/soft"%string /\
   (C <? RangeRule.min (ToneProfile.chroma profile))%float = true) \/
  (n = "too saturated/bright"%string /\
   (RangeRule.max (ToneProfile.chroma profile) <? C)%float = true) \/
  (n = "leans outside cool hue sectors"%string /\ (0 <? d)%float = true) \/
  (n = "yellow warmth present"%string /\
   match ToneProfile.warmthPenalty profile with
   | Some w => (WarmthPenaltyRule.lab_b_gt w <? Lab.b lab)%float = true
   | None => False
   end).
Proof.
  intros lab L C d. unfold scoreColour. cbv zeta. fold lab. fold L. fold C. fold d.
  destruct (ToneProfile.warmthPenalty profile) as [w|];
    [destruct (WarmthPenaltyRule.lab_b_gt w <? Lab.b lab)%float|];
    cbn [sc_notes];
    destruct (L <? RangeRule.min (ToneProfile.lightness profile))%float;
    destruct (RangeRule.max (ToneProfile.lightness profile) <? L)%float;
    destruct (C <? RangeRule.min (ToneProfile.chroma profile))%float;
    destruct (RangeRule.max (ToneProfile.chroma profile) <? C)%float;
    destruct (0 <? d)%float;
    cbn [app In];
    (split;
     [ intros I; repeat (destruct I as [<-|I]; [tauto|]); destruct I
     | intros I;
       repeat (destruct I as [[-> I]|I];
               [first [discriminate I | tauto]|]);
       destruct I as [-> I]; first [discriminate I | tauto] ]).
Qed.

(** The notes of a result come in the order of the source, each at most
    once: they are a sublist of [allNotes]. *)
Theorem notes_in_order `{M : MathImpl} (rgb : Rgb.t) (profile : ToneProfile.t) :
  sublist (sc_notes (scoreColour rgb profile)) allNotes.
Proof.
  unfold scoreColour. cbv zeta.
  destruct (ToneProfile.warmthPenalty profile) as [w|];
    [destruct (WarmthPenaltyRule.lab_b_gt w <? _)%float|];
    cbn [sc_notes];
    repeat match goal with
           | |- context [if ?c then _ else _] => destruct c
           end;
    cbn [app]; unfold allNotes;
    repeat first [apply sublist_nil | apply sublist_skip | apply sublist_cons].
Qed.

(** With [min <= max] in the lightness rule a colour is never both too dark
    and too light, and with [min <= max] in the chroma rule never both too
    gray and too saturated. *)
Theorem notes_exclusive `{M : MathImpl} (rgb : Rgb.t) (profile : ToneProfile.t) :
  let notes := sc_notes (scoreColour rgb profile) in
  ((RangeRule.min (ToneProfile.lightness profile)
      <=? RangeRule.max (ToneProfile.lightness profile))%float = true ->
   ~ (In "too dark for this tone"%string notes /\ In "too light/washed"%string notes)) /\
  ((RangeRule.min (ToneProfile.chroma profile)
      <=? RangeRule.max (ToneProfile.chroma profile))%float = true ->
   ~ (In "too gray/soft"%string notes /\ In "too saturated/bright"%string notes)).
Proof.
  cbv zeta. split; intros Hmm [I1 I2]; apply notes_In in I1, I2; cbv zeta in I1, I2.
  - destruct I1 as [[_ I1]|[[? _]|[[? _]|[[? _]|[[? _]|[? _]]]]]]; try discriminate.
    destruct I2 as [[? _]|[[_ I2]|[[? _]|[[? _]|[[? _]|[? _]]]]]]; try discriminate.
    apply ltb_rank in I1, I2. apply leb_rank in Hmm.
    destruct I1 as (_ & _ & I1), I2 as (_ & _ & I2), Hmm as (_ & _ & Hmm). lia.
  - destruct I1 as [[? _]|[[? _]|[[_ I1]|[[? _]|[[? _]|[? _]]]]]]; try discriminate.
    destruct I2 as [[? _]|[[? _]|[[? _]|[[_ I2]|[[? _]|[? _]]]]]]; try discriminate.
    apply ltb_rank in I1, I2. apply leb_rank in Hmm.
    destruct I1 as (_ & _ & I1), I2 as (_ & _ & I2), Hmm as (_ & _ & Hmm). lia.
Qed.

Lemma notes_exclusive_witness :
  let notes := sc_notes (@scoreColour sampleMath (rgbOf 0 0 0) sampleProfile) in
  ~ (In "too dark for this tone"%string notes /\ In "too light/washed"%string notes) /\
  ~ (In "too gray/soft"%string notes /\ In "too saturated/bright"%string notes).
Proof.
  cbv zeta.
  pose proof (@notes_exclusive sampleMath (rgbOf 0 0 0) sampleProfile) as [H1 H2].
  split; [apply H1|apply H2]; reflexivity.
Defined.

(** ** Hue sectors *)

Lemma hueSectorLoop_inside (h : number) (sectors : list (number * number)) (best : number) :
  Exists (fun s => inSector h (fst s) (snd s) = true) sectors ->
  hueSectorLoop h sectors best = 0%float.
Proof.
  intros E. revert best. induction E as [[a b] l E|[a b] l E IH]; intros best;
    cbn [hueSectorLoop].
  - cbn [fst snd] in E. now rewrite E.
  - destruct (inSector h a b); [reflexivity|apply IH].
Qed.

(** A hue that lies in one of the sectors, whichever its place in the list,
    is at distance 0, and the colour gets no hue note. *)
Theorem hueSectorDistance_inside `{M : MathImpl} (rgb : Rgb.t) (profile : ToneProfile.t) :
  let H := labHue (rgbToLab (Rgb.r rgb) (Rgb.g rgb) (Rgb.b rgb)) in
  let sectors := HueSectorsRule.sectors (ToneProfile.hueSectors profile) in
  Exists (fun s => inSector H (fst s) (snd s) = true) sectors ->
  hueSectorDistance H sectors = 0%float /\
  ~ In "leans outside cool hue sectors"%string (sc_notes (scoreColour rgb profile)).
Proof.
  intros H sectors E.
  assert (D : hueSectorDistance H sectors = 0%float) by (now apply hueSectorLoop_inside).
  split; [exact D|]. intros I. apply notes_In in I. cbv zeta in I.
  fold H sectors in I. rewrite D in I.
  destruct I as [[? _]|[[? _]|[[? _]|[[? _]|[[_ I]|[? _]]]]]]; discriminate.
Qed.

Lemma hueSectorDistance_inside_witness :
  hueSectorDistance
    (@labHue sampleMath (@rgbToLab sampleMath 0 0 0)) [(350, 10)]%float = 0%float /\
  ~ In "leans outside cool hue sectors"%string
      (sc_notes (@scoreColour sampleMath (rgbOf 0 0 0) sampleProfile)).
Proof.
  apply (@hueSectorDistance_inside sampleMath (rgbOf 0 0 0) sampleProfile).
  cbv zeta. apply Exists_cons_hd. vm_compute. reflexivity.
Defined.

(** ** A penalty that is not a number *)

Lemma sub_nan_r (x y : number) : is_nan y = true -> is_nan (x - y) = true.
Proof.
  rewrite !is_nan_Prim2SF, FloatAxioms.sub_spec. intros ->.
  now destruct (Prim2SF x).
Qed.

Lemma mul_nan_l (x y : number) : is_nan x = true -> is_nan (x * y) = true.
Proof. rewrite !is_nan_Prim2SF, FloatAxioms.mul_spec. now intros ->. Qed.

Lemma div_nan_l (x y : number) : is_nan x = true -> is_nan (x / y) = true.
Proof. rewrite !is_nan_Prim2SF, FloatAxioms.div_spec. now intros ->. Qed.

Lemma Math_round_nan (x : number) : is_nan x = true -> Math_round x = x.
Proof. rewrite is_nan_Prim2SF. unfold Math_round. now intros ->. Qed.

Lemma round1_nan (x : number) : is_nan x = true -> is_nan (round1 x) = true.
Proof.
  intros N. unfold round1. apply div_nan_l.
  rewrite Math_round_nan; now apply mul_nan_l.
Qed.

Lemma find_never {A} (p : A -> bool) (l : list A) :
  (forall x, p x = false) -> List.find p l = None.
Proof. intros H. induction l as [|x l IH]; cbn [List.find]; [|rewrite H]; auto. Qed.

(** When the penalties add up to NaN, as they do for a profile with a
    missing weight, the call still returns: the score of the result is NaN
    and its match level is ["not a match"], whatever the buckets are. *)
Theorem evaluateTone_nan_penalty `{M : MathImpl}
    (hex : string) (profile : ToneProfile.t) (st : store)
    (rgb : Rgb.t) (l : list MatchBucket.t) :
  hexToRgb hex = Return rgb ->
  st !! ToneProfile.matchBuckets profile = Some l ->
  is_nan (sc_penalty (scoreColour rgb profile)) = true ->
  exists res st',
    evaluateTone hex profile st = (Return res, st') /\
    ToneResult.matchLevel res = "not a match"%string /\
    is_nan (ToneResult.score res) = true.
Proof.
  intros Hh Hl N. do 2 eexists.
  split; [eapply evaluateTone_returns; eassumption|].
  assert (Ns : is_nan (clamp 0 (100 - sc_penalty (scoreColour rgb profile)) 100) = true).
  { rewrite clamp_nan, (sub_nan_r _ _ N). reflexivity. }
  cbn [resultOf ToneResult.matchLevel ToneResult.score]. split.
  - rewrite find_never; [reflexivity|]. intros b. now apply leb_nan_r.
  - now apply round1_nan.
Qed.

Lemma evaluateTone_nan_penalty_witness :
  exists res st',
    @evaluateTone sampleMath "#000000" weightlessProfile sampleStore = (Return res, st') /\
    ToneResult.matchLevel res = "not a match"%string /\
    is_nan (ToneResult.score res) = true.
Proof.
  apply (@evaluateTone_nan_penalty sampleMath "#000000" weightlessProfile sampleStore
           (rgbOf 0 0 0) [bucket 0 "Poor"; bucket 90 "Perfect"; bucket 70 "Good"]).
  - vm_compute. reflexivity.
  - reflexivity.
  - vm_compute. reflexivity.
Defined.


(** ** Buckets of equal [minScore] *)





(** ** A colour that meets every rule *)

Lemma is_zero_Prim2SF (z : number) :
  is_zero z = true <-> exists s, Prim2SF z = S754_zero s.
Proof.
  unfold is_zero. rewrite FloatAxioms.eqb_spec. unfold SFeqb.
  change (Prim2SF zero) with (S754_zero false).
  destruct (Prim2SF z) as [s|s| |s m e]; cbn [SFcompare].
  - split; [eauto|reflexivity].
  - split; [destruct s; discriminate|intros [? ?]; discriminate].
  - split; [discriminate|intros [? ?]; discriminate].
  - split; [destruct s; discriminate|intros [? ?]; discriminate].
Qed.

Lemma truthy_Prim2SF (t : number) :
  falsy t = false ->
  (exists s m e, Prim2SF t = S754_finite s m e) \/ (exists s, Prim2SF t = S754_infinity s).
Proof.
  unfold falsy. intros F. apply orb_false_elim in F. destruct F as [N Z].
  apply is_nan_false in N.
  destruct (Prim2SF t) as [s|s| |s m e] eqn:E; try congruence; eauto.
  assert (is_zero t = true) by (apply is_zero_Prim2SF; eauto). congruence.
Qed.

Lemma js_or_truthy (x : number) : falsy (js_or x 60) = false.
Proof. unfold js_or. destruct (falsy x) eqn:F; [reflexivity|exact F]. Qed.

Lemma div_zero_l (z t : number) :
  is_zero z = true -> falsy t = false -> is_zero (z / t) = true.
Proof.
  intros Hz Ht. apply is_zero_Prim2SF in Hz. destruct Hz as [s Hz].
  apply is_zero_Prim2SF. rewrite FloatAxioms.div_spec, Hz.
  destruct (truthy_Prim2SF t Ht) as [(s' & m & e & ->)|(s' & ->)]; cbn [SF64div SFdiv]; eauto.
Qed.

Lemma Math_min_zero_one (z : number) : is_zero z = true -> Math_min z 1 = z.
Proof.
  intros Hz. apply is_zero_Prim2SF in Hz. destruct Hz as [s Hz].
  assert (N : is_nan z = false) by (apply is_nan_false; congruence).
  assert (L : (z <? 1)%float = true).
  { rewrite FloatAxioms.ltb_spec, Hz. reflexivity. }
  unfold Math_min. rewrite N, L. reflexivity.
Qed.

Lemma finite_Prim2SF (w : number) :
  is_finite w = true ->
  (exists s, Prim2SF w = S754_zero s) \/ (exists s m e, Prim2SF w = S754_finite s m e).
Proof.
  unfold is_finite. intros F. apply negb_true_iff, orb_false_elim in F.
  destruct F as [N I]. apply is_nan_false in N.
  unfold is_infinity in I. rewrite FloatAxioms.eqb_spec, FloatAxioms.abs_spec in I.
  destruct (Prim2SF w) as [s|s| |s m e] eqn:E; try congruence; eauto.
  discriminate I.
Qed.

Lemma mul_zero_l (z w : number) :
  is_zero z = true -> is_finite w = true -> is_zero (z * w) = true.
Proof.
  intros Hz Hw. apply is_zero_Prim2SF in Hz. destruct Hz as [s Hz].
  apply is_zero_Prim2SF. rewrite FloatAxioms.mul_spec, Hz.
  destruct (finite_Prim2SF w Hw) as [(s' & ->)|(s' & m & e & ->)]; cbn [SF64mul SFmul]; eauto.
Qed.

Lemma add_zero_r (z : number) : is_zero z = true -> (0 + z)%float = 0%float.
Proof.
  intros Hz. apply is_zero_Prim2SF in Hz. destruct Hz as [s Hz].
  apply Prim2SF_inj. rewrite FloatAxioms.add_spec, Hz. now destruct s.
Qed.

Lemma leb_not_ltb (x y : number) : (x <=? y)%float = true -> (y <? x)%float = false.
Proof.
  intros H. apply leb_rank in H. destruct H as (? & ? & ?).
  apply ltb_false_rank; auto.
Qed.

(** A colour whose lightness and chroma lie within their ranges, whose hue
    lies in a sector and which the warmth rule does not catch has no
    penalty at all: its score is exactly 100 and it carries no note. *)
Theorem evaluateTone_perfect `{M : MathImpl}
    (hex : string) (profile : ToneProfile.t) (st : store)
    (rgb : Rgb.t) (l : list MatchBucket.t) :
  let lab := rgbToLab (Rgb.r rgb) (Rgb.g rgb) (Rgb.b rgb) in
  let L := Lab.L lab in
  let C := Math_hypot (Lab.a lab) (Lab.b lab) in
  let H := labHue lab in
  hexToRgb hex = Return rgb ->
  st !! ToneProfile.matchBuckets profile = Some l ->
  (RangeRule.min (ToneProfile.lightness profile) <=? L)%float = true ->
  (L <=? RangeRule.max (ToneProfile.lightness profile))%float = true ->
  (RangeRule.min (ToneProfile.chroma profile) <=? C)%float = true ->
  (C <=? RangeRule.max (ToneProfile.chroma profile))%float = true ->
  Exists (fun s => inSector H (fst s) (snd s) = true)
    (HueSectorsRule.sectors (ToneProfile.hueSectors profile)) ->
  is_finite (HueSectorsRule.weight (ToneProfile.hueSectors profile)) = true ->
  match ToneProfile.warmthPenalty profile with
  | Some w => (WarmthPenaltyRule.lab_b_gt w <? Lab.b lab)%float = false
  | None => True
  end ->
  exists res st',
    evaluateTone hex profile st = (Return res, st') /\
    ToneResult.score res = 100%float /\ ToneResult.notes res = [].
Proof.
  intros lab L C H Hh Hl L1 L2 C1 C2 E W Warm.
  do 2 eexists. split; [eapply evaluateTone_returns; eassumption|].
  cbn [resultOf ToneResult.score ToneResult.notes].
  assert (P : sc_penalty (scoreColour rgb profile) = 0%float /\
              sc_notes (scoreColour rgb profile) = []).
  { unfold scoreColour. cbv zeta. fold lab. fold L. fold C. fold H.
    assert (R1 : rangePenalty L (ToneProfile.lightness profile) = 0%float)
      by (unfold rangePenalty; cbv zeta; now rewrite L1, L2).
    assert (R2 : rangePenalty C (ToneProfile.chroma profile) = 0%float)
      by (unfold rangePenalty; cbv zeta; now rewrite C1, C2).
    rewrite R1, R2.
    rewrite (leb_not_ltb _ _ L1), (leb_not_ltb _ _ L2),
            (leb_not_ltb _ _ C1), (leb_not_ltb _ _ C2).
    unfold hueSectorDistance. rewrite (hueSectorLoop_inside _ _ _ E).
    set (t := js_or (HueSectorsRule.toleranceDegrees (ToneProfile.hueSectors profile)) 60).
    assert (Z : is_zero (Math_min (0 / t) 1
                         * HueSectorsRule.weight (ToneProfile.hueSectors profile)) = true).
    { apply mul_zero_l; [|exact W]. rewrite Math_min_zero_one.
      - apply div_zero_l; [reflexivity|apply js_or_truthy].
      - apply div_zero_l; [reflexivity|apply js_or_truthy]. }
    change (0 + 0 + 0)%float with 0%float. rewrite (add_zero_r _ Z).
    change (0 <? 0)%float with false.
    destruct (ToneProfile.warmthPenalty profile) as [w|]; [rewrite Warm|]; split; reflexivity. }
  destruct P as [P1 P2]. rewrite P1, P2. split; reflexivity.
Qed.

Lemma evaluateTone_perfect_witness :
  exists res st',
    @evaluateTone sampleMath "#000000" darkProfile sampleStore = (Return res, st') /\
    ToneResult.score res = 100%float /\ ToneResult.notes res = [].
Proof.
  apply (@evaluateTone_perfect sampleMath "#000000" darkProfile sampleStore (rgbOf 0 0 0)
           [bucket 0 "Poor"; bucket 90 "Perfect"; bucket 70 "Good"]);
    try (vm_compute; reflexivity).
  apply Exists_cons_hd. vm_compute. reflexivity.
Defined.

(** ** From the camera to the score *)

(** What the screen does with a frame, lines 237-245: the colour that the
    native module extracts from a bitmap of ordinary size is always one
    that [evaluateTone] accepts, and it is scored as the very channels the
    module reports. *)
Theorem native_colour_is_scored `{M : MathImpl}
    (env : Java.Env) (imagePath : string) (bitmap : Java.Bitmap)
    (profile : ToneProfile.t) (st : store) (l : list MatchBucket.t) :
  Java.fileExists env (Java.removeAll "file://" imagePath) = true ->
  Java.decodeFile env (Java.removeAll "file://" imagePath) 8 = Some bitmap ->
  1 <= Java.getWidth bitmap < 2 ^ 31 ->
  1 <= Java.getHeight bitmap < 2 ^ 31 ->
  20 <= Z.min (Java.getWidth bitmap) (Java.getHeight bitmap) <= 300000 ->
  st !! ToneProfile.matchBuckets profile = Some l ->
  exists colorResult,
    Java.extractColorFromImage env imagePath = Java.Resolved colorResult /\
    evaluateTone (Java.hex colorResult) profile st
    = (Return (resultOf (Java.hex colorResult) profile
                 (scoreColour (rgbOf (Java.r colorResult) (Java.g colorResult)
                                 (Java.b colorResult)) profile)
                 (sorted byMinScoreDesc l)),
       <[ToneProfile.matchBuckets profile := sorted byMinScoreDesc l]> st).
Proof.
  intros He Hd Hw Hh Hs Hl.
  destruct (extract_means env imagePath bitmap He Hd Hw Hh Hs) as (E & _ & Br & Bg & Bb).
  cbv zeta in E. eexists. split; [exact E|]. cbn [Java.hex Java.r Java.g Java.b].
  apply evaluateTone_returns; [|exact Hl].
  now apply formatColor_read_back.
Qed.

Lemma native_colour_is_scored_witness :
  exists colorResult,
    Java.extractColorFromImage (envWith (plainBitmap 40 30 (-8355585))) "file:///tmp/a.jpg"
      = Java.Resolved colorResult /\
    @evaluateTone sampleMath (Java.hex colorResult) sampleProfile sampleStore
    = (Return (resultOf (Java.hex colorResult) sampleProfile
                 (@scoreColour sampleMath
                    (rgbOf (Java.r colorResult) (Java.g colorResult) (Java.b colorResult))
                    sampleProfile)
                 (sorted byMinScoreDesc
                    [bucket 0 "Poor"; bucket 90 "Perfect"; bucket 70 "Good"])),
       <[ToneProfile.matchBuckets sampleProfile :=
           sorted byMinScoreDesc [bucket 0 "Poor"; bucket 90 "Perfect"; bucket 70 "Good"]]>
         sampleStore).
Proof.
  apply (@native_colour_is_scored sampleMath (envWith (plainBitmap 40 30 (-8355585)))
           "file:///tmp/a.jpg" (plainBitmap 40 30 (-8355585)) sampleProfile sampleStore);
    simpl; try reflexivity; lia.
Defined.
